(** * Diverse Subgroup Set Discovery (dssd.py): embedding and properties

    The mining loop of [dssd.py] is embedded function by function.
    Python values are modelled as follows.

    - A [dict] is an association list in insertion order (the order is
      observable through [str], [keys] and [items]); Python keeps keys
      unique, which is the predicate [wf_dict].
    - An [int] is a [Z]; [len] is a [nat] injected into [Z] where it is
      compared with an [int] parameter.
    - A raised exception is the [Raise] branch of [result]; the
      exception classes that the code can meet are listed in [exn].
    - The boolean [DataFrame] is its ordered column index and its rows;
      a row gives the cell of every column name. *)

From Stdlib Require Import String Ascii.
From Stdlib Require Import List ZArith Lia Bool Arith Permutation Sorted.
Import ListNotations.
Open Scope string_scope.
Open Scope list_scope.

(** ** Exceptions *)

Inductive exn : Type :=
| ValueError
| KeyError
| UndefinedVariableError.

Inductive result (A : Type) : Type :=
| Ok (a : A)
| Raise (e : exn).

Arguments Ok {A} a.
Arguments Raise {A} e.

Definition bind {A B : Type} (m : result A) (f : A -> result B) : result B :=
  match m with
  | Ok a => f a
  | Raise e => Raise e
  end.

Notation "x <- m ;; k" := (bind m (fun x => k))
  (at level 61, m at next level, right associativity).

(** ** Python built-ins used by the script *)

Module Py.

(** [sep.join(parts)]. *)
Fixpoint join (sep : string) (parts : list string) : string :=
  match parts with
  | [] => ""
  | [p] => p
  | p :: rest => String.append p (String.append sep (join sep rest))
  end.

(** [repr] of a [bool]. *)
Definition repr_bool (b : bool) : string :=
  if b then "True" else "False".

Definition hex_digit (n : nat) : ascii :=
  if (n <? 10)%nat then ascii_of_nat (48 + n) else ascii_of_nat (87 + n).

Fixpoint contains (c : ascii) (s : string) : bool :=
  match s with
  | EmptyString => false
  | String a rest => Ascii.eqb a c || contains c rest
  end.

(** The quote that [repr] of a [str] picks: a double quote when the
    text holds a single quote and no double quote, a single quote
    otherwise. *)
Definition double_quote : ascii := ascii_of_nat 34.

Definition repr_quote (s : string) : ascii :=
  if contains "'"%char s && negb (contains double_quote s)
  then double_quote else "'"%char.

Definition repr_char (q c : ascii) : string :=
  let n := nat_of_ascii c in
  if Ascii.eqb c "\"%char then "\\"
  else if Ascii.eqb c q then String "\"%char (String c EmptyString)
  else if (n =? 9)%nat then "\t"
  else if (n =? 10)%nat then "\n"
  else if (n =? 13)%nat then "\r"
  else if (n <? 32)%nat || (n =? 127)%nat
       then String "\"%char (String "x"%char
              (String (hex_digit (n / 16)) (String (hex_digit (n mod 16)) EmptyString)))
  else String c EmptyString.

Fixpoint repr_body (q : ascii) (s : string) : string :=
  match s with
  | EmptyString => EmptyString
  | String c rest => String.append (repr_char q c) (repr_body q rest)
  end.

(** [repr] of a [str] (bytes above 127 stand for printable text and
    are kept as they are). *)
Definition repr_str (s : string) : string :=
  let q := repr_quote s in
  String q (String.append (repr_body q s) (String q EmptyString)).

(** [l[:stop]]: a negative [stop] counts from the end. *)
Definition slice_to {A : Type} (stop : Z) (l : list A) : list A :=
  if (0 <=? stop)%Z then firstn (Z.to_nat stop) l
  else firstn (length l - Z.to_nat (- stop)) l.

End Py.

(** ** Dictionaries *)

Definition dict (V : Type) : Type := list (string * V).

Definition dict_keys {V : Type} (d : dict V) : list string := map fst d.

Definition wf_dict {V : Type} (d : dict V) : Prop := NoDup (dict_keys d).

(** [k in d]. *)
Definition dict_mem {V : Type} (k : string) (d : dict V) : bool :=
  existsb (String.eqb k) (dict_keys d).

(** [d.get(k)], [None] when the key is absent. *)
Fixpoint dict_get {V : Type} (k : string) (d : dict V) : option V :=
  match d with
  | [] => None
  | (k', v) :: rest => if String.eqb k k' then Some v else dict_get k rest
  end.

(** [d[k] = v]: an existing key keeps its position, a new key goes last. *)
Fixpoint dict_set {V : Type} (k : string) (v : V) (d : dict V) : dict V :=
  match d with
  | [] => [(k, v)]
  | (k', v') :: rest =>
      if String.eqb k k' then (k', v) :: rest else (k', v') :: dict_set k v rest
  end.

(** [{**a, **b}]. *)
Definition dict_merge {V : Type} (a b : dict V) : dict V :=
  fold_left (fun acc kv => dict_set (fst kv) (snd kv) acc) b a.

(** [del d[k]], a [KeyError] when the key is absent. *)
Fixpoint dict_del {V : Type} (k : string) (d : dict V) : result (dict V) :=
  match d with
  | [] => Raise KeyError
  | (k', v) :: rest =>
      if String.eqb k k' then Ok rest
      else rest' <- dict_del k rest ;; Ok ((k', v) :: rest')
  end.

(** A subgroup description: conditions [column == value]. *)
Definition description : Type := dict bool.

Definition cond_eqb (a b : string * bool) : bool :=
  String.eqb (fst a) (fst b) && Bool.eqb (snd a) (snd b).

Definition cond_in (c : string * bool) (d : description) : bool :=
  existsb (cond_eqb c) d.

(** [d1 == d2] on dictionaries: the same items, whatever the insertion
    order. *)
Definition dict_eqb (d1 d2 : description) : bool :=
  forallb (fun c => cond_in c d2) d1 && forallb (fun c => cond_in c d1) d2.

(** [str(d)]. *)
Definition dict_str (d : description) : string :=
  String.append "{"
    (String.append
       (Py.join ", "
          (map (fun kv => String.append (Py.repr_str (fst kv))
                            (String.append ": " (Py.repr_bool (snd kv)))) d))
       "}").

(** A retained entry: the tuple [(candidate, quality)]. *)
Definition entry : Type := (description * Z)%type.

Definition entry_eqb (a b : entry) : bool :=
  dict_eqb (fst a) (fst b) && (snd a =? snd b)%Z.

(** [min(R, key=lambda x: x[1])]: the scan keeps the entry met first
    among those of least quality; [ValueError] on an empty list. *)
Definition min_step (m y : entry) : entry :=
  if (snd y <? snd m)%Z then y else m.

Definition py_min (R : list entry) : result entry :=
  match R with
  | [] => Raise ValueError
  | x :: rest => Ok (fold_left min_step rest x)
  end.

(** [R.remove(x)]: drops the first item equal to [x]; [ValueError] when
    there is none. *)
Fixpoint py_remove (x : entry) (R : list entry) : result (list entry) :=
  match R with
  | [] => Raise ValueError
  | y :: rest =>
      if entry_eqb y x then Ok rest
      else rest' <- py_remove x rest ;; Ok (y :: rest')
  end.

(** [selected.sort(key=lambda x: x[1], reverse=True)]: the sort is
    stable, also under [reverse=True]. *)
Fixpoint insert_desc (x : entry) (l : list entry) : list entry :=
  match l with
  | [] => [x]
  | y :: rest =>
      if (snd y <=? snd x)%Z then x :: y :: rest else y :: insert_desc x rest
  end.

Definition sort_desc (l : list entry) : list entry :=
  fold_right insert_desc [] l.

(** ** The dataset *)

Definition row : Type := string -> bool.

Record DataFrame : Type := mkDataFrame {
  columns : list string;
  rows : list row
}.

(** The text handed to [DataFrame.query]: the conditions rendered as
    [column==True] or [column==False] and joined by [and]. *)
Definition query_expr (d : description) : string :=
  Py.join " and "
    (map (fun kv => String.append (fst kv)
                      (String.append "==" (Py.repr_bool (snd kv)))) d).

(** A row passes the conjunction of the conditions. *)
Definition row_satisfies (d : description) (r : row) : bool :=
  forallb (fun kv => Bool.eqb (r (fst kv)) (snd kv)) d.

(** [data.query(expr)] for the expressions the script builds.  pandas
    refuses an empty expression ([ValueError]: expr cannot be an empty
    string) and a name that is no column ([UndefinedVariableError]);
    otherwise the rows passing every condition come back in order.
    The script pastes the labels unquoted into the text, so this reading
    of the text is the one pandas makes only on the frames of
    [plain_frame] below: a label with a blank or an operator, a keyword
    or a repeated label makes pandas parse something else or raise. *)
Definition query (data : DataFrame) (d : description) : result (list row) :=
  if String.eqb (query_expr d) "" then Raise ValueError
  else if forallb (fun k => existsb (String.eqb k) (columns data)) (dict_keys d)
       then Ok (filter (row_satisfies d) (rows data))
       else Raise UndefinedVariableError.

(** The labels that stand for themselves in the query text: Python
    identifiers (a letter or an underscore, then letters, digits and
    underscores) that are no keyword. *)
Definition ident_start (c : ascii) : bool :=
  let n := nat_of_ascii c in
  ((65 <=? n)%nat && (n <=? 90)%nat)
  || ((97 <=? n)%nat && (n <=? 122)%nat)
  || (n =? 95)%nat.

Definition ident_char (c : ascii) : bool :=
  let n := nat_of_ascii c in
  ident_start c || ((48 <=? n)%nat && (n <=? 57)%nat).

Fixpoint all_chars (f : ascii -> bool) (s : string) : bool :=
  match s with
  | EmptyString => true
  | String c rest => f c && all_chars f rest
  end.

Definition python_keywords : list string :=
  ["False"; "None"; "True"; "and"; "as"; "assert"; "async"; "await";
   "break"; "class"; "continue"; "def"; "del"; "elif"; "else"; "except";
   "finally"; "for"; "from"; "global"; "if"; "import"; "in"; "is";
   "lambda"; "nonlocal"; "not"; "or"; "pass"; "raise"; "return"; "try";
   "while"; "with"; "yield"].

Definition plain_label (s : string) : bool :=
  match s with
  | EmptyString => false
  | String c rest => ident_start c && all_chars ident_char rest
  end
  && negb (existsb (String.eqb s) python_keywords).

Fixpoint distinct_labels (l : list string) : bool :=
  match l with
  | [] => true
  | x :: rest => negb (existsb (String.eqb x) rest) && distinct_labels rest
  end.

(** A frame whose labels are plain and pairwise different. *)
Definition plain_frame (data : DataFrame) : bool :=
  forallb plain_label (columns data) && distinct_labels (columns data).

(** The rows of a description and its coverage, as the specification
    words them: the rows satisfying all of its conditions. *)
Definition matches (data : DataFrame) (d : description) : list row :=
  filter (row_satisfies d) (rows data).

Definition coverage (data : DataFrame) (d : description) : nat :=
  length (matches data d).

(** ** generate_refinements *)

Definition try_refinement (subgroup : description) (mincov : Z)
    (data : DataFrame) (column : string) (value : bool)
    : result (list description) :=
  let new_condition := [(column, value)] in
  let refined_subgroup := dict_merge subgroup new_condition in
  matched <- query data refined_subgroup ;;
  if (mincov <=? Z.of_nat (length matched))%Z
  then Ok [refined_subgroup] else Ok [].

Fixpoint refine_columns (cols : list string) (subgroup : description)
    (mincov : Z) (data : DataFrame) : result (list description) :=
  match cols with
  | [] => Ok []
  | column :: rest =>
      if dict_mem column subgroup
      then refine_columns rest subgroup mincov data
      else
        on_true <- try_refinement subgroup mincov data column true ;;
        on_false <- try_refinement subgroup mincov data column false ;;
        more <- refine_columns rest subgroup mincov data ;;
        Ok (on_true ++ on_false ++ more)
  end.

Definition generate_refinements (subgroup : description) (mincov : Z)
    (data : DataFrame) : result (list description) :=
  refine_columns (columns data) subgroup mincov data.

(** ** update_top_k *)

Definition update_top_k (R : list entry) (j : Z) (candidate : description)
    (quality : Z) : result (list entry) :=
  if (Z.of_nat (length R) <? j)%Z then Ok (R ++ [(candidate, quality)])
  else
    worst <- py_min R ;;
    let min_quality := snd worst in
    if (min_quality <? quality)%Z
    then
      worst' <- py_min R ;;
      R' <- py_remove worst' R ;;
      Ok (R' ++ [(candidate, quality)])
    else Ok R.

(** ** subgroup_selection *)

Definition quality_fn : Type := description -> DataFrame -> Z.

(** The configuration mapping [P]. *)
Definition params : Type := dict Z.

Definition subgroup_selection (candidates : list description)
    (quality_func : quality_fn) (P : params) (data : DataFrame)
    : list description :=
  let selected := map (fun c => (c, quality_func c data)) candidates in
  let selected := sort_desc selected in
  let width :=
    match dict_get "beam_width" P with
    | Some w => w
    | None => Z.of_nat (length selected)
    end in
  map fst (Py.slice_to width selected).

(** ** apply_dominance_pruning *)

Fixpoint prune_loop (quality_func : quality_fn) (data : DataFrame)
    (conditions : list string) (pruned_subgroup : description)
    (current_quality : Z) : result description :=
  match conditions with
  | [] => Ok pruned_subgroup
  | condition :: rest =>
      temp_subgroup <- dict_del condition pruned_subgroup ;;
      let temp_quality := quality_func temp_subgroup data in
      let next :=
        if (current_quality <=? temp_quality)%Z
        then (temp_subgroup, temp_quality)
        else (pruned_subgroup, current_quality) in
      if (length (dict_keys (fst next)) =? 1)%nat then Ok (fst next)
      else prune_loop quality_func data rest (fst next) (snd next)
  end.

Definition apply_dominance_pruning (subgroup : entry)
    (quality_func : quality_fn) (data : DataFrame) : result description :=
  let current_quality := snd subgroup in
  let pruned_subgroup := fst subgroup in
  if (length (dict_keys pruned_subgroup) =? 1)%nat then Ok pruned_subgroup
  else prune_loop quality_func data (dict_keys (fst subgroup))
         pruned_subgroup current_quality.

(** ** remove_duplicates *)

Fixpoint dedup_loop (subgroups : list description) (seen : list string)
    : list description :=
  match subgroups with
  | [] => []
  | subgroup :: rest =>
      let text := dict_str subgroup in
      if existsb (String.eqb text) seen then dedup_loop rest seen
      else subgroup :: dedup_loop rest (text :: seen)
  end.

Definition remove_duplicates (subgroups : list description)
    : list description :=
  dedup_loop subgroups [].

(** ** dssd *)

Fixpoint extend_refinements (Beam : list description) (mincov : Z)
    (data : DataFrame) : result (list description) :=
  match Beam with
  | [] => Ok []
  | b :: rest =>
      here <- generate_refinements b mincov data ;;
      more <- extend_refinements rest mincov data ;;
      Ok (here ++ more)
  end.

Fixpoint retain_all (quality_func : quality_fn) (data : DataFrame) (j : Z)
    (Cands : list description) (R : list entry) : result (list entry) :=
  match Cands with
  | [] => Ok R
  | c :: rest =>
      R' <- update_top_k R j c (quality_func c data) ;;
      retain_all quality_func data j rest R'
  end.

(** The [while depth <= maxdepth] loop: [depth] starts at 1 and grows by
    one, so the body runs [Z.to_nat maxdepth] times; [rounds] counts
    the runs that are left. *)
Fixpoint depth_loop (rounds : nat) (data : DataFrame)
    (quality_func : quality_fn) (j mincov : Z) (P : params)
    (R : list entry) (Beam : list description) : result (list entry) :=
  match rounds with
  | O => Ok R
  | S rounds' =>
      Cands <- extend_refinements Beam mincov data ;;
      R' <- retain_all quality_func data j Cands R ;;
      let Beam' := subgroup_selection Cands quality_func P data in
      depth_loop rounds' data quality_func j mincov P R' Beam'
  end.

Fixpoint prune_all (quality_func : quality_fn) (data : DataFrame)
    (R : list entry) : result (list description) :=
  match R with
  | [] => Ok []
  | r :: rest =>
      p <- apply_dominance_pruning r quality_func data ;;
      ps <- prune_all quality_func data rest ;;
      Ok (p :: ps)
  end.

Definition dssd (S : DataFrame) (quality_func : quality_fn) (j k mincov maxdepth : Z)
    (P : params) : result (list description) :=
  R <- depth_loop (Z.to_nat maxdepth) S quality_func j mincov P [] [[]] ;;
  R <- prune_all quality_func S R ;;
  let R := remove_duplicates R in
  let R := subgroup_selection R quality_func P S in
  Ok (Py.slice_to k R).

(** ** calculate_subgroup_quality *)

Definition interests : list string :=
  ["cycle_life_0"; "cycle_life_5"; "cycle_life_10"; "cycle_life_15";
   "cycle_life_20"; "cycle_life_25"; "cycle_life_30"; "cycle_life_35";
   "cycle_life_40"; "cycle_life_45"; "cycle_life_50"; "cycle_life_55";
   "cycle_life_60"; "cycle_life_85"; "cycle_life_95"].

Definition bonus_of (subgroup : description) : Z :=
  fold_left
    (fun bonus k =>
       if existsb (String.eqb k) interests
       then (if (bonus =? 1)%Z then 3%Z else 0%Z)
       else bonus)
    (dict_keys subgroup) 1%Z.

(** The conditions of a description hold booleans, so every one of them
    is rendered by the [==] branch of the expression builder. *)
Definition calculate_subgroup_quality (subgroup : description)
    (data : DataFrame) : result Z :=
  filtered_data <- query data subgroup ;;
  Ok (Z.of_nat (length filtered_data)
      * Z.of_nat (length (dict_keys subgroup))
      * bonus_of subgroup)%Z.

(** ** Auxiliary notions used in the statements *)

(** The entries of a given quality, in list order. *)
Definition by_quality (q : Z) (e : entry) : bool := (snd e =? q)%Z.

(** Descending order on entries. *)
Definition quality_ge (a b : entry) : Prop := (snd b <= snd a)%Z.

(** A candidate paired with its freshly computed quality. *)
Definition score (quality_func : quality_fn) (data : DataFrame)
    (c : description) : entry :=
  (c, quality_func c data).

(** The whole candidate pool in the order the sort leaves it. *)
Definition ranked (quality_func : quality_fn) (data : DataFrame)
    (candidates : list description) : list description :=
  map fst (sort_desc (map (score quality_func data) candidates)).

(** [update_top_k] with a ghost log: the same branches, returning
    next to the retained list the entry that left it, if any. *)
Definition update_top_k_log (R : list entry) (j : Z) (candidate : description)
    (quality : Z) : result (list entry * list entry) :=
  if (Z.of_nat (length R) <? j)%Z then Ok (R ++ [(candidate, quality)], [])
  else
    worst <- py_min R ;;
    let min_quality := snd worst in
    if (min_quality <? quality)%Z
    then
      worst' <- py_min R ;;
      R' <- py_remove worst' R ;;
      Ok (R' ++ [(candidate, quality)], [worst'])
    else Ok (R, []).

(** A sequence of calls of [update_top_k], each on the list the
    previous one left. *)
Fixpoint update_all (j : Z) (ins : list entry) (R : list entry)
    : result (list entry) :=
  match ins with
  | [] => Ok R
  | (candidate, quality) :: rest =>
      R' <- update_top_k R j candidate quality ;;
      update_all j rest R'
  end.

(** The same sequence with the log: [log] collects every evicted entry. *)
Fixpoint insert_all (j : Z) (ins : list entry) (R log : list entry)
    : result (list entry * list entry) :=
  match ins with
  | [] => Ok (R, log)
  | (candidate, quality) :: rest =>
      st <- update_top_k_log R j candidate quality ;;
      insert_all j rest (fst st) (log ++ snd st)
  end.

(** No evicted entry is better than a retained one. *)
Definition evicted_below (R log : list entry) : Prop :=
  forall e r, In e log -> In r R -> (snd e <= snd r)%Z.

(** What holds of the tracker between two calls: the width bound,
    nothing evicted while there is room, and the order above. *)
Definition tracker_inv (j : Z) (R log : list entry) : Prop :=
  (Z.of_nat (length R) <= j)%Z /\
  ((Z.of_nat (length R) < j)%Z -> log = []) /\
  evicted_below R log.

(** A refinement of [subgroup] kept by [generate_refinements]: one
    more condition, on a column of the dataset that the subgroup does
    not constrain, and enough rows. *)
Definition kept_refinement (data : DataFrame) (mincov : Z)
    (cols : list string) (subgroup r : description) : Prop :=
  exists c v,
    In c cols /\ dict_mem c subgroup = false /\
    r = subgroup ++ [(c, v)] /\ (mincov <= Z.of_nat (coverage data r))%Z.

(** The retained set after pruning and deduplication, on which the
    final selection of [dssd] works. *)
Definition retained_set (S : DataFrame) (quality_func : quality_fn)
    (j mincov maxdepth : Z) (P : params) : result (list description) :=
  R <- depth_loop (Z.to_nat maxdepth) S quality_func j mincov P [] [[]] ;;
  R <- prune_all quality_func S R ;;
  Ok (remove_duplicates R).

(** A description that may sit in the beam: unique keys, all of them
    columns of the dataset. *)
Definition beam_ok (data : DataFrame) (d : description) : Prop :=
  wf_dict d /\ incl (dict_keys d) (columns data).

(** A description that may sit in the retained list: unique keys, at
    least one condition, enough rows. *)
Definition mined (data : DataFrame) (mincov : Z) (d : description) : Prop :=
  wf_dict d /\ d <> [] /\ (mincov <= Z.of_nat (coverage data d))%Z.

(** ** A small dataset: ten rows, column A true on rows 0 to 6 and
    column B true on rows 3 to 9 *)

Definition ab_row (a b : bool) : row :=
  fun c => if String.eqb c "A" then a else if String.eqb c "B" then b else false.

Definition ab_data : DataFrame :=
  mkDataFrame ["A"; "B"]
    (map (fun i => ab_row (i <? 7)%nat (2 <? i)%nat) (seq 0 10)).

Definition d_AB : description := [("A", true); ("B", true)].
Definition d_BA : description := [("B", true); ("A", true)].

Definition three_candidates : list description :=
  [[("A", false)]; [("A", true)]; [("B", true)]].

(** The quality measure that counts the covered rows. *)
Definition coverage_quality : quality_fn :=
  fun d data => Z.of_nat (coverage data d).

(** The quality measure of the script on columns outside its list of
    interests: covered rows times number of conditions. *)
Definition coverage_times_size : quality_fn :=
  fun d data => (Z.of_nat (coverage data d) * Z.of_nat (length d))%Z.

(** ** Further notions for the remaining properties *)

(** [l1] is [l2] read in order with some items left out. *)
Inductive subseq {A : Type} : list A -> list A -> Prop :=
| subseq_nil : subseq [] []
| subseq_skip (x : A) (l1 l2 : list A) : subseq l1 l2 -> subseq l1 (x :: l2)
| subseq_keep (x : A) (l1 l2 : list A) : subseq l1 l2 -> subseq (x :: l1) (x :: l2).

(** The columns that a subgroup leaves free, in column order. *)
Definition unconstrained (cols : list string) (subgroup : description)
    : list string :=
  filter (fun c => negb (dict_mem c subgroup)) cols.

(** The refinements on one free column: first the one that asks for
    [True], then the one that asks for [False], each if it covers
    [mincov] rows. *)
Definition refinements_on (data : DataFrame) (mincov : Z)
    (subgroup : description) (column : string) : list description :=
  filter (fun r => (mincov <=? Z.of_nat (coverage data r))%Z)
    [subgroup ++ [(column, true)]; subgroup ++ [(column, false)]].

(** How many conditions bear on a column of [interests]. *)
Definition count_interests (subgroup : description) : nat :=
  length (filter (fun k => existsb (String.eqb k) interests)
            (dict_keys subgroup)).

(** Two more columns beside A and B, both from the list of interests. *)
Definition abc_data : DataFrame :=
  mkDataFrame ["A"; "B"; "cycle_life_0"; "cycle_life_5"]
    (map (fun i => fun c =>
            if String.eqb c "cycle_life_0" then (i <? 5)%nat
            else if String.eqb c "cycle_life_5" then (1 <? i)%nat
            else ab_row (i <? 7)%nat (2 <? i)%nat c) (seq 0 10)).

Definition two_interests : description :=
  [("cycle_life_0", true); ("cycle_life_5", true)].

(** * Properties *)

(** ** The error monad *)

Lemma bind_Ok {A B : Type} (m : result A) (f : A -> result B) (b : B) :
  bind m f = Ok b -> exists a, m = Ok a /\ f a = Ok b.
Proof.
  destruct m as [a|e]; simpl; intros H; [eauto | discriminate].
Qed.

Ltac inv_bind H :=
  let a := fresh "a" in
  let Ha := fresh "Ha" in
  apply bind_Ok in H; destruct H as (a & Ha & H).

(** ** Slices *)

Section Slices.
Context {A : Type}.

Lemma firstn_incl (n : nat) (l : list A) : incl (firstn n l) l.
Proof.
  intros x Hx. rewrite <- (firstn_skipn n l). apply in_or_app. now left.
Qed.

Lemma slice_to_incl (stop : Z) (l : list A) : incl (Py.slice_to stop l) l.
Proof.
  unfold Py.slice_to. destruct (0 <=? stop)%Z; apply firstn_incl.
Qed.

Lemma slice_to_length_nonneg (stop : Z) (l : list A) :
  (0 <= stop)%Z ->
  length (Py.slice_to stop l) = Nat.min (Z.to_nat stop) (length l).
Proof.
  intros H. unfold Py.slice_to.
  destruct (Z.leb_spec 0 stop); [apply length_firstn | lia].
Qed.

Lemma slice_to_length_neg (stop : Z) (l : list A) :
  (stop < 0)%Z ->
  length (Py.slice_to stop l) = length l - Z.to_nat (- stop).
Proof.
  intros H. unfold Py.slice_to.
  destruct (Z.leb_spec 0 stop); [lia |].
  rewrite length_firstn. lia.
Qed.

Lemma slice_to_map {B : Type} (f : A -> B) (stop : Z) (l : list A) :
  map f (Py.slice_to stop l) = Py.slice_to stop (map f l).
Proof.
  unfold Py.slice_to. rewrite length_map.
  destruct (0 <=? stop)%Z; symmetry; apply firstn_map.
Qed.

Lemma slice_to_prefix (stop : Z) (l : list A) :
  Py.slice_to stop l = firstn (length (Py.slice_to stop l)) l.
Proof.
  unfold Py.slice_to. destruct (0 <=? stop)%Z.
  - rewrite length_firstn.
    destruct (Nat.le_ge_cases (Z.to_nat stop) (length l)) as [H|H].
    + now rewrite Nat.min_l.
    + rewrite Nat.min_r by assumption. rewrite firstn_all.
      now apply firstn_all2.
  - rewrite length_firstn. f_equal. lia.
Qed.
End Slices.

(** ** The stable descending sort *)

Lemma insert_desc_perm (x : entry) (l : list entry) :
  Permutation (insert_desc x l) (x :: l).
Proof.
  induction l as [|y rest IH]; simpl.
  - reflexivity.
  - destruct (snd y <=? snd x)%Z.
    + reflexivity.
    + rewrite IH. apply perm_swap.
Qed.

Lemma sort_desc_perm (l : list entry) : Permutation (sort_desc l) l.
Proof.
  induction l as [|x rest IH]; simpl.
  - reflexivity.
  - rewrite insert_desc_perm. now constructor.
Qed.

Lemma insert_desc_sorted (x : entry) (l : list entry) :
  StronglySorted quality_ge l -> StronglySorted quality_ge (insert_desc x l).
Proof.
  induction 1 as [|y rest Hs IH Hall]; simpl.
  - repeat constructor.
  - destruct (Z.leb_spec (snd y) (snd x)) as [Hle|Hlt].
    + constructor; [now constructor |].
      constructor; [exact Hle |].
      eapply Forall_impl; [| exact Hall].
      unfold quality_ge. intros; lia.
    + constructor; [exact IH |].
      eapply Permutation_Forall; [symmetry; apply insert_desc_perm |].
      constructor; [unfold quality_ge; lia | exact Hall].
Qed.

Lemma sort_desc_sorted (l : list entry) : StronglySorted quality_ge (sort_desc l).
Proof.
  induction l as [|x rest IH]; simpl.
  - constructor.
  - now apply insert_desc_sorted.
Qed.

(** Stability: an insertion never overtakes an entry of equal quality. *)
Lemma insert_desc_stable (q : Z) (x : entry) (l : list entry) :
  filter (by_quality q) (insert_desc x l) = filter (by_quality q) (x :: l).
Proof.
  induction l as [|y rest IH]; [reflexivity |].
  cbn [insert_desc].
  destruct (Z.leb_spec (snd y) (snd x)) as [Hle|Hlt]; [reflexivity |].
  cbn [filter] in *. rewrite IH. unfold by_quality.
  destruct (Z.eqb_spec (snd x) q), (Z.eqb_spec (snd y) q); try reflexivity; lia.
Qed.

Lemma sort_desc_stable (q : Z) (l : list entry) :
  filter (by_quality q) (sort_desc l) = filter (by_quality q) l.
Proof.
  induction l as [|x rest IH]; [reflexivity |].
  cbn [sort_desc fold_right]. rewrite insert_desc_stable.
  fold (sort_desc rest). cbn [filter]. now rewrite IH.
Qed.

(** ** subgroup_selection *)

Section Selection.
Variable quality_func : quality_fn.
Variable data : DataFrame.

Local Abbreviation sc := (score quality_func data).
Local Abbreviation rk := (ranked quality_func data).

Lemma map_fst_score (l : list description) : map fst (map sc l) = l.
Proof.
  rewrite map_map. simpl. apply map_id.
Qed.

Lemma scored_back (l : list entry) (candidates : list description) :
  Permutation l (map sc candidates) -> map sc (map fst l) = l.
Proof.
  intros HP. rewrite map_map.
  rewrite <- (map_id l) at 2. apply map_ext_in.
  intros [c q] Hin.
  apply (Permutation_in _ HP) in Hin. apply in_map_iff in Hin.
  destruct Hin as (c' & Heq & _). unfold score in *. simpl.
  now inversion Heq.
Qed.

Lemma ranked_scored (candidates : list description) :
  map sc (rk candidates) = sort_desc (map sc candidates).
Proof.
  unfold ranked. eapply scored_back. apply sort_desc_perm.
Qed.

Lemma ranked_perm (candidates : list description) :
  Permutation (rk candidates) candidates.
Proof.
  unfold ranked. rewrite <- (map_fst_score candidates) at 2.
  apply Permutation_map, sort_desc_perm.
Qed.

Lemma StronglySorted_map_score (l : list description) :
  StronglySorted quality_ge (map sc l) ->
  StronglySorted (fun a b => (quality_func b data <= quality_func a data)%Z) l.
Proof.
  induction l as [|c rest IH]; simpl; intros H; [constructor |].
  apply StronglySorted_inv in H. destruct H as [Hs Hall].
  constructor; [now apply IH |].
  rewrite Forall_map in Hall. exact Hall.
Qed.

Lemma ranked_sorted (candidates : list description) :
  StronglySorted (fun a b => (quality_func b data <= quality_func a data)%Z)
    (rk candidates).
Proof.
  apply StronglySorted_map_score. rewrite ranked_scored.
  apply sort_desc_sorted.
Qed.

Lemma filter_map_score (q : Z) (l : list description) :
  filter (by_quality q) (map sc l)
  = map sc (filter (fun c => (quality_func c data =? q)%Z) l).
Proof.
  induction l as [|c rest IH]; [reflexivity |].
  simpl. unfold by_quality at 1. simpl.
  destruct (quality_func c data =? q)%Z; simpl; now rewrite IH.
Qed.

Lemma ranked_stable (q : Z) (candidates : list description) :
  filter (fun c => (quality_func c data =? q)%Z) (rk candidates)
  = filter (fun c => (quality_func c data =? q)%Z) candidates.
Proof.
  rewrite <- (map_fst_score (filter _ (rk candidates))).
  rewrite <- filter_map_score, ranked_scored, sort_desc_stable.
  rewrite filter_map_score. apply map_fst_score.
Qed.

Lemma subgroup_selection_ranked (candidates : list description) (P : params) :
  subgroup_selection candidates quality_func P data
  = Py.slice_to
      (match dict_get "beam_width" P with
       | Some w => w
       | None => Z.of_nat (length candidates)
       end)
      (rk candidates).
Proof.
  unfold subgroup_selection, ranked. cbv zeta.
  change (fun c : description => (c, quality_func c data)) with sc.
  assert (Hlen : length (sort_desc (map sc candidates)) = length candidates).
  { rewrite (Permutation_length (sort_desc_perm _)). apply length_map. }
  rewrite slice_to_map. f_equal.
  destruct (dict_get "beam_width" P) as [w|]; [reflexivity |].
  f_equal. exact Hlen.
Qed.

Lemma subgroup_selection_incl (candidates : list description) (P : params) :
  incl (subgroup_selection candidates quality_func P data) candidates.
Proof.
  rewrite subgroup_selection_ranked. intros c Hc.
  apply slice_to_incl in Hc.
  eapply Permutation_in; [apply ranked_perm | exact Hc].
Qed.
End Selection.

(** C9, as the code has it: with a [beam_width] [bw] in [P],
    [subgroup_selection] returns a prefix of the candidates sorted by
    descending recomputed quality, equal qualities keeping their input
    order; the prefix has [min bw n] entries when [bw >= 0] and
    [max 0 (n + bw)] entries when [bw] is negative. *)
Theorem subgroup_selection_prefix_of_ranked
    (candidates : list description) (quality_func : quality_fn)
    (P : params) (data : DataFrame) (bw : Z) :
  dict_get "beam_width" P = Some bw ->
  let out := subgroup_selection candidates quality_func P data in
  let n := Z.of_nat (length candidates) in
  ((0 <= bw)%Z -> Z.of_nat (length out) = Z.min bw n) /\
  ((bw < 0)%Z -> Z.of_nat (length out) = Z.max 0 (n + bw)) /\
  out = firstn (length out) (ranked quality_func data candidates) /\
  Permutation (ranked quality_func data candidates) candidates /\
  StronglySorted (fun a b => (quality_func b data <= quality_func a data)%Z)
    (ranked quality_func data candidates) /\
  (forall q,
     filter (fun c => (quality_func c data =? q)%Z)
       (ranked quality_func data candidates)
     = filter (fun c => (quality_func c data =? q)%Z) candidates).
Proof.
  intros Hbw out n.
  assert (Hout : out = Py.slice_to bw (ranked quality_func data candidates)).
  { unfold out. rewrite subgroup_selection_ranked. now rewrite Hbw. }
  assert (Hn : length (ranked quality_func data candidates) = length candidates).
  { apply Permutation_length, ranked_perm. }
  repeat split.
  - intros H. rewrite Hout, slice_to_length_nonneg, Hn by assumption.
    unfold n. lia.
  - intros H. rewrite Hout, slice_to_length_neg, Hn by assumption.
    unfold n. lia.
  - rewrite Hout at 1 2. apply slice_to_prefix.
  - apply ranked_perm.
  - apply ranked_sorted.
  - intros q. apply ranked_stable.
Qed.

Lemma subgroup_selection_at_most_width
    (candidates : list description) (quality_func : quality_fn)
    (P : params) (data : DataFrame) (bw : Z) :
  dict_get "beam_width" P = Some bw -> (0 <= bw)%Z ->
  (Z.of_nat (length (subgroup_selection candidates quality_func P data)) <= bw)%Z.
Proof.
  intros Hbw Hpos. rewrite subgroup_selection_ranked, Hbw.
  rewrite slice_to_length_nonneg by assumption. lia.
Qed.

Lemma subgroup_selection_prefix_of_ranked_witness :
  subgroup_selection three_candidates coverage_quality
    [("beam_width", 2%Z)] ab_data
  = firstn 2 (ranked coverage_quality ab_data three_candidates).
Proof.
  pose proof (subgroup_selection_prefix_of_ranked three_candidates
                coverage_quality [("beam_width", 2%Z)] ab_data 2 eq_refl) as H.
  cbv zeta in H. destruct H as (_ & _ & H & _).
  exact H.
Defined.

(** C9 as worded fails for a negative width: three candidates and
    [beam_width = -1] give two descriptions, not [min (-1) 3]. *)
Lemma subgroup_selection_negative_width :
  subgroup_selection three_candidates coverage_quality
    [("beam_width", (-1)%Z)] ab_data
  = [[("A", true)]; [("B", true)]] /\
  Z.of_nat (length (subgroup_selection three_candidates coverage_quality
                      [("beam_width", (-1)%Z)] ab_data))
  <> Z.min (-1) (Z.of_nat (length three_candidates)).
Proof.
  split; [vm_compute; reflexivity | vm_compute; discriminate].
Qed.

(** ** update_top_k *)

Lemma cond_eqb_refl (c : string * bool) : cond_eqb c c = true.
Proof.
  unfold cond_eqb. rewrite String.eqb_refl. now destruct (snd c).
Qed.

Lemma dict_eqb_refl (d : description) : dict_eqb d d = true.
Proof.
  assert (H : forallb (fun c => cond_in c d) d = true).
  { apply forallb_forall. intros c Hc. unfold cond_in.
    apply existsb_exists. exists c. split; [exact Hc | apply cond_eqb_refl]. }
  unfold dict_eqb. now rewrite H.
Qed.

Lemma entry_eqb_refl (e : entry) : entry_eqb e e = true.
Proof.
  unfold entry_eqb. now rewrite dict_eqb_refl, Z.eqb_refl.
Qed.

Lemma entry_eqb_quality (a b : entry) : entry_eqb a b = true -> snd a = snd b.
Proof.
  unfold entry_eqb. intros H. apply andb_prop in H. now apply Z.eqb_eq.
Qed.

(** [min] returns the first entry of least quality. *)
Lemma py_min_first (R : list entry) :
  R <> [] ->
  exists pre w post,
    py_min R = Ok w /\ R = pre ++ w :: post /\
    Forall (fun e => (snd w < snd e)%Z) pre /\
    Forall (fun e => (snd w <= snd e)%Z) post.
Proof.
  destruct R as [|x rest]; [congruence | intros _]. simpl.
  induction rest as [|y rest IH] using rev_ind.
  - exists [], x, []. simpl. auto.
  - destruct IH as (pre & w & post & Hmin & Hsplit & Hpre & Hpost).
    injection Hmin as Hmin.
    rewrite fold_left_app. simpl. rewrite Hmin. unfold min_step.
    destruct (Z.ltb_spec (snd y) (snd w)) as [Hlt|Hge].
    + exists (pre ++ w :: post), y, []. repeat split.
      * rewrite <- Hsplit. reflexivity.
      * apply Forall_app. split.
        -- eapply Forall_impl; [| exact Hpre]. simpl. intros; lia.
        -- constructor; [exact Hlt |].
           eapply Forall_impl; [| exact Hpost]. simpl. intros; lia.
      * constructor.
    + exists pre, w, (post ++ [y]). repeat split.
      * rewrite app_comm_cons, Hsplit, <- app_assoc. reflexivity.
      * exact Hpre.
      * apply Forall_app. split; [exact Hpost | now repeat constructor].
Qed.

(** [remove] takes out exactly that first entry. *)
Lemma py_remove_first (pre post : list entry) (w : entry) :
  Forall (fun e => (snd w < snd e)%Z) pre ->
  py_remove w (pre ++ w :: post) = Ok (pre ++ post).
Proof.
  induction 1 as [|e pre He _ IH]; simpl.
  - now rewrite entry_eqb_refl.
  - destruct (entry_eqb e w) eqn:Heq.
    + apply entry_eqb_quality in Heq. lia.
    + now rewrite IH.
Qed.

Lemma update_top_k_forgets_log (R : list entry) (j : Z) (c : description) (q : Z) :
  update_top_k R j c q = (st <- update_top_k_log R j c q ;; Ok (fst st)).
Proof.
  unfold update_top_k, update_top_k_log.
  destruct (Z.of_nat (length R) <? j)%Z; [reflexivity |].
  destruct (py_min R) as [w|e]; [| reflexivity]. simpl.
  destruct (snd w <? q)%Z; [| reflexivity].
  destruct (py_remove w R); reflexivity.
Qed.

(** The three outcomes of one call on a non-empty or not yet full list. *)
Lemma update_top_k_log_room (R : list entry) (j : Z) (c : description) (q : Z) :
  (Z.of_nat (length R) < j)%Z ->
  update_top_k_log R j c q = Ok (R ++ [(c, q)], []).
Proof.
  intros H. unfold update_top_k_log.
  now destruct (Z.ltb_spec (Z.of_nat (length R)) j); [| lia].
Qed.

Lemma update_top_k_log_full (R : list entry) (j : Z) (c : description) (q : Z) :
  (j <= Z.of_nat (length R))%Z -> R <> [] ->
  exists pre w post,
    py_min R = Ok w /\ R = pre ++ w :: post /\
    Forall (fun e => (snd w < snd e)%Z) pre /\
    Forall (fun e => (snd w <= snd e)%Z) post /\
    update_top_k_log R j c q
    = if (snd w <? q)%Z then Ok (pre ++ post ++ [(c, q)], [w]) else Ok (R, []).
Proof.
  intros Hj HR.
  destruct (py_min_first R HR) as (pre & w & post & Hmin & Hsplit & Hpre & Hpost).
  exists pre, w, post. repeat split; try assumption.
  unfold update_top_k_log.
  destruct (Z.ltb_spec (Z.of_nat (length R)) j); [lia |].
  rewrite Hmin. simpl.
  destruct (snd w <? q)%Z; [| reflexivity].
  rewrite Hsplit at 1. rewrite py_remove_first by assumption. simpl.
  now rewrite <- app_assoc.
Qed.

Lemma update_top_k_empty_raises (j : Z) (c : description) (q : Z) :
  (j <= 0)%Z -> update_top_k [] j c q = Raise ValueError.
Proof.
  intros H. unfold update_top_k. simpl.
  now destruct (Z.ltb_spec 0 j); [lia |].
Qed.

(** One call keeps the tracker invariant. *)
Lemma update_top_k_log_invariant (R log : list entry) (j : Z)
    (c : description) (q : Z) :
  (1 <= j)%Z -> tracker_inv j R log ->
  exists R' ev,
    update_top_k_log R j c q = Ok (R', ev) /\ tracker_inv j R' (log ++ ev).
Proof.
  intros Hj (Hlen & Hroom & Hinv).
  destruct (Z.lt_ge_cases (Z.of_nat (length R)) j) as [Hlt|Hfull].
  - exists (R ++ [(c, q)]), []. split; [now apply update_top_k_log_room |].
    rewrite (Hroom Hlt). repeat split.
    + rewrite length_app. simpl. lia.
    + intros e r [].
  - assert (HR : R <> []) by (intros ->; simpl in Hfull; lia).
    destruct (update_top_k_log_full R j c q Hfull HR)
      as (pre & w & post & _ & Hsplit & Hpre & Hpost & Hrun).
    assert (Hw : forall r, In r R -> (snd w <= snd r)%Z).
    { intros r Hr. rewrite Hsplit in Hr. apply in_app_or in Hr.
      rewrite Forall_forall in Hpre, Hpost.
      destruct Hr as [Hr|[<-|Hr]]; [apply Hpre in Hr | | apply Hpost in Hr]; lia. }
    assert (Hw_in : In w R) by (rewrite Hsplit; apply in_elt).
    assert (Hsub : forall r, In r (pre ++ post) -> In r R).
    { intros r Hr. rewrite Hsplit. apply in_app_or in Hr.
      apply in_or_app. destruct Hr; [now left | right; now right]. }
    destruct (Z.ltb_spec (snd w) q) as [Hacc|Hrej].
    + exists (pre ++ post ++ [(c, q)]), [w]. split; [exact Hrun |].
      assert (Hl : length (pre ++ post ++ [(c, q)]) = length R).
      { rewrite Hsplit. repeat rewrite length_app. simpl. lia. }
      repeat split.
      * rewrite Hl. exact Hlen.
      * rewrite Hl. lia.
      * intros e r He Hr. rewrite app_assoc in Hr.
        assert (He' : (snd e <= snd w)%Z).
        { apply in_app_or in He. destruct He as [He|[<-|[]]]; [| lia].
          now apply Hinv. }
        apply in_app_or in Hr. destruct Hr as [Hr|[<-|[]]].
        -- specialize (Hw r (Hsub r Hr)). lia.
        -- simpl. lia.
    + exists R, []. split; [exact Hrun |].
      rewrite app_nil_r. now repeat split.
Qed.

Lemma tracker_inv_init (j : Z) : (1 <= j)%Z -> tracker_inv j [] [].
Proof.
  intros Hj. repeat split.
  - simpl. lia.
  - intros e r [].
Qed.

Lemma insert_all_invariant (j : Z) (ins R log : list entry) :
  (1 <= j)%Z -> tracker_inv j R log ->
  exists R' log', insert_all j ins R log = Ok (R', log') /\ tracker_inv j R' log'.
Proof.
  intros Hj. revert R log.
  induction ins as [|[c q] rest IH]; intros R log Hinv; simpl.
  - eauto.
  - destruct (update_top_k_log_invariant R log j c q Hj Hinv)
      as (R1 & ev & Hstep & Hinv1).
    rewrite Hstep. simpl. now apply IH.
Qed.

Lemma update_all_insert_all (j : Z) (ins R log : list entry) :
  update_all j ins R = (st <- insert_all j ins R log ;; Ok (fst st)).
Proof.
  revert R log. induction ins as [|[c q] rest IH]; intros R log; simpl.
  - reflexivity.
  - rewrite update_top_k_forgets_log.
    destruct (update_top_k_log R j c q) as [[R' ev]|e]; simpl; [| reflexivity].
    apply IH.
Qed.

(** C5: for [j >= 1], any run of insertions from the empty list goes
    through without an error and (a) leaves at most [j] entries, (c)
    with every evicted entry of quality at most that of every retained
    one; (b) a call on a list of exactly [j] entries accepts the new
    entry only when its quality is strictly above the least retained
    quality, and then drops exactly one entry, the first of that least
    quality, and appends the new one. *)
Theorem update_top_k_bounded_eviction (j : Z) :
  (1 <= j)%Z ->
  (forall ins,
     exists R log,
       update_all j ins [] = Ok R /\
       insert_all j ins [] [] = Ok (R, log) /\
       (Z.of_nat (length R) <= j)%Z /\
       (forall e r, In e log -> In r R -> (snd e <= snd r)%Z)) /\
  (forall R c q,
     Z.of_nat (length R) = j ->
     exists pre w post,
       R = pre ++ w :: post /\
       (forall r, In r R -> (snd w <= snd r)%Z) /\
       ((snd w < q)%Z ->
          update_top_k R j c q = Ok (pre ++ post ++ [(c, q)]) /\
          update_top_k_log R j c q = Ok (pre ++ post ++ [(c, q)], [w])) /\
       ((q <= snd w)%Z ->
          update_top_k R j c q = Ok R /\
          update_top_k_log R j c q = Ok (R, []))).
Proof.
  intros Hj. split.
  - intros ins.
    destruct (insert_all_invariant j ins [] [] Hj (tracker_inv_init j Hj))
      as (R & log & Hrun & Hlen & _ & Hinv).
    exists R, log. rewrite (update_all_insert_all j ins [] []), Hrun. auto.
  - intros R c q Hlen.
    assert (HR : R <> []) by (intros ->; simpl in Hlen; lia).
    assert (Hfull : (j <= Z.of_nat (length R))%Z) by lia.
    destruct (update_top_k_log_full R j c q Hfull HR)
      as (pre & w & post & _ & Hsplit & Hpre & Hpost & Hrun).
    exists pre, w, post. split; [exact Hsplit |]. split.
    { intros r Hr. rewrite Hsplit in Hr. apply in_app_or in Hr.
      rewrite Forall_forall in Hpre, Hpost.
      destruct Hr as [Hr|[<-|Hr]]; [apply Hpre in Hr | | apply Hpost in Hr]; lia. }
    rewrite update_top_k_forgets_log, Hrun.
    split; intros Hq.
    + destruct (Z.ltb_spec (snd w) q); [auto | lia].
    + destruct (Z.ltb_spec (snd w) q); [lia | auto].
Qed.

Lemma update_top_k_bounded_eviction_witness :
  exists R log,
    update_all 2
      [([("A", true)], 7%Z); ([("A", false)], 3%Z); ([("B", true)], 7%Z)]
      [] = Ok R /\
    insert_all 2
      [([("A", true)], 7%Z); ([("A", false)], 3%Z); ([("B", true)], 7%Z)]
      [] [] = Ok (R, log) /\
    (Z.of_nat (length R) <= 2)%Z /\
    (forall e r, In e log -> In r R -> (snd e <= snd r)%Z).
Proof.
  assert (H : (1 <= 2)%Z) by lia.
  exact (proj1 (update_top_k_bounded_eviction 2 H) _).
Defined.

(** ** The coverage query *)

Lemma append_empty_r (a b : string) : String.append a b = "" -> b = "".
Proof.
  destruct a; simpl; [auto | discriminate].
Qed.

Lemma join_cons_nonempty (sep x : string) (rest : list string) :
  x <> "" -> Py.join sep (x :: rest) <> "".
Proof.
  intros Hx. simpl. destruct rest as [|y rest]; [exact Hx |].
  intros H. destruct x; [now apply Hx | discriminate].
Qed.

Lemma query_expr_empty (d : description) : query_expr d = "" <-> d = [].
Proof.
  split; [| now intros ->].
  destruct d as [|[k v] rest]; [reflexivity |].
  unfold query_expr. simpl map. intros H. exfalso.
  revert H. apply join_cons_nonempty. simpl fst. simpl snd.
  intros H. apply append_empty_r in H. destruct v; discriminate.
Qed.

Lemma existsb_eqb_In (k : string) (l : list string) :
  existsb (String.eqb k) l = true <-> In k l.
Proof.
  rewrite existsb_exists. split.
  - intros (x & Hx & Heq). apply String.eqb_eq in Heq. now subst.
  - intros H. exists k. split; [exact H | apply String.eqb_refl].
Qed.

Lemma dict_mem_In {V : Type} (k : string) (d : dict V) :
  dict_mem k d = true <-> In k (dict_keys d).
Proof.
  apply existsb_eqb_In.
Qed.

Lemma dict_mem_false {V : Type} (k : string) (d : dict V) :
  dict_mem k d = false <-> ~ In k (dict_keys d).
Proof.
  rewrite <- dict_mem_In. destruct (dict_mem k d); split; congruence.
Qed.

Lemma query_defined (data : DataFrame) (d : description) :
  d <> [] -> incl (dict_keys d) (columns data) ->
  query data d = Ok (matches data d).
Proof.
  intros Hd Hcols. unfold query.
  destruct (String.eqb_spec (query_expr d) "") as [He|_].
  - now apply query_expr_empty in He.
  - replace (forallb _ (dict_keys d)) with true; [reflexivity |].
    symmetry. apply forallb_forall. intros k Hk.
    apply existsb_eqb_In. now apply Hcols.
Qed.

Lemma query_Ok (data : DataFrame) (d : description) (rs : list row) :
  query data d = Ok rs ->
  rs = matches data d /\ d <> [] /\ incl (dict_keys d) (columns data).
Proof.
  unfold query.
  destruct (String.eqb_spec (query_expr d) "") as [|Hne]; [discriminate |].
  destruct (forallb _ (dict_keys d)) eqn:Hall; [| discriminate].
  intros H. injection H as <-. repeat split.
  - intros ->. now apply Hne.
  - intros k Hk. rewrite forallb_forall in Hall.
    apply existsb_eqb_In. now apply Hall.
Qed.

Lemma dict_set_fresh {V : Type} (k : string) (v : V) (d : dict V) :
  dict_mem k d = false -> dict_set k v d = d ++ [(k, v)].
Proof.
  unfold dict_mem. induction d as [|[k' v'] rest IH]; simpl; [reflexivity |].
  intros H. apply orb_false_elim in H. destruct H as [Hk Hrest].
  rewrite Hk. now rewrite IH.
Qed.

Lemma dict_merge_fresh {V : Type} (k : string) (v : V) (d : dict V) :
  dict_mem k d = false -> dict_merge d [(k, v)] = d ++ [(k, v)].
Proof.
  intros H. unfold dict_merge. simpl. now apply dict_set_fresh.
Qed.

Lemma filter_filter {A : Type} (f g : A -> bool) (l : list A) :
  filter f (filter g l) = filter (fun x => g x && f x) l.
Proof.
  induction l as [|x rest IH]; simpl; [reflexivity |].
  destruct (g x); simpl; [destruct (f x) |]; now rewrite IH.
Qed.

Lemma filter_length_mono {A : Type} (f g : A -> bool) (l : list A) :
  (forall x, f x = true -> g x = true) ->
  length (filter f l) <= length (filter g l).
Proof.
  intros H. induction l as [|x rest IH]; simpl; [lia |].
  destruct (f x) eqn:Hf.
  - rewrite (H x Hf). simpl. lia.
  - destruct (g x); simpl; lia.
Qed.

Lemma matches_extend (data : DataFrame) (d : description) (c : string) (v : bool) :
  matches data (d ++ [(c, v)])
  = filter (fun r => Bool.eqb (r c) v) (matches data d).
Proof.
  unfold matches. rewrite filter_filter. apply filter_ext.
  intros r. unfold row_satisfies. rewrite forallb_app. simpl.
  now rewrite andb_true_r.
Qed.

(** Fewer conditions, more rows. *)
Lemma row_satisfies_incl (p d : description) (r : row) :
  incl p d -> row_satisfies d r = true -> row_satisfies p r = true.
Proof.
  unfold row_satisfies. rewrite !forallb_forall. intros Hincl H x Hx.
  apply H, Hincl, Hx.
Qed.

Lemma coverage_incl (data : DataFrame) (p d : description) :
  incl p d -> coverage data d <= coverage data p.
Proof.
  intros H. apply filter_length_mono. intros r. now apply row_satisfies_incl.
Qed.



(** C4, as the code has it: the text built from a description without
    conditions is the empty string, which the query refuses with a
    [ValueError], in [generate_refinements]' query as in
    [calculate_subgroup_quality]; every row does satisfy the empty
    conjunction. *)
Theorem query_needs_a_condition (data : DataFrame) :
  query_expr [] = "" /\
  query data [] = Raise ValueError /\
  calculate_subgroup_quality [] data = Raise ValueError /\
  matches data [] = rows data.
Proof.
  repeat split.
  unfold matches. simpl. induction (rows data) as [|r rest IH]; simpl; congruence.
Qed.

(** C4 as worded fails: on the ten-row dataset the query on the empty
    description raises instead of returning the ten rows. *)
Lemma query_empty_description_raises :
  query ab_data [] = Raise ValueError /\
  query ab_data [] <> Ok (rows ab_data) /\
  calculate_subgroup_quality [] ab_data = Raise ValueError.
Proof.
  repeat split. discriminate.
Qed.

(** ** apply_dominance_pruning *)

Lemma dict_del_split {V : Type} (k : string) (d d' : dict V) :
  dict_del k d = Ok d' ->
  exists pre v post, d = pre ++ (k, v) :: post /\ d' = pre ++ post.
Proof.
  revert d'. induction d as [|[k' v'] rest IH]; simpl; intros d' H.
  - discriminate.
  - destruct (String.eqb_spec k k') as [->|Hne].
    + injection H as <-. now exists [], v', rest.
    + inv_bind H. injection H as <-.
      destruct (IH _ Ha) as (pre & v & post & -> & ->).
      now exists ((k', v') :: pre), v, post.
Qed.

Lemma dict_del_defined {V : Type} (k : string) (d : dict V) :
  In k (dict_keys d) -> exists d', dict_del k d = Ok d'.
Proof.
  induction d as [|[k' v'] rest IH]; simpl; intros H; [contradiction |].
  destruct (String.eqb_spec k k') as [->|Hne]; [eauto |].
  destruct H as [H|H]; [congruence |].
  destruct (IH H) as (d' & ->). simpl. eauto.
Qed.

Lemma dict_del_incl {V : Type} (k : string) (d d' : dict V) :
  dict_del k d = Ok d' -> incl d' d.
Proof.
  intros H. destruct (dict_del_split k d d' H) as (pre & v & post & -> & ->).
  intros x Hx. apply in_app_or in Hx. apply in_or_app.
  destruct Hx; [now left | right; now right].
Qed.

Lemma dict_del_length {V : Type} (k : string) (d d' : dict V) :
  dict_del k d = Ok d' -> length d = S (length d').
Proof.
  intros H. destruct (dict_del_split k d d' H) as (pre & v & post & -> & ->).
  rewrite !length_app. simpl. lia.
Qed.

Lemma dict_del_other_keys {V : Type} (k k' : string) (d d' : dict V) :
  dict_del k d = Ok d' -> k' <> k -> In k' (dict_keys d) -> In k' (dict_keys d').
Proof.
  intros H Hne. destruct (dict_del_split k d d' H) as (pre & v & post & -> & ->).
  unfold dict_keys. rewrite !map_app. simpl. intros Hin.
  apply in_app_or in Hin. apply in_or_app.
  destruct Hin as [Hin|[Hin|Hin]]; [now left | congruence | now right].
Qed.

Lemma dict_keys_length {V : Type} (d : dict V) : length (dict_keys d) = length d.
Proof.
  apply length_map.
Qed.

Section Pruning.
Variable quality_func : quality_fn.
Variable data : DataFrame.

(** The loop visits keys that are still present, so no deletion fails;
    it only drops conditions, never goes from two conditions or more to
    none, and its running quality never decreases. *)
Lemma prune_loop_spec (conditions : list string) :
  forall (pruned : description) (cq : Z),
    NoDup conditions -> incl conditions (dict_keys pruned) ->
    exists p,
      prune_loop quality_func data conditions pruned cq = Ok p /\
      incl p pruned /\
      (2 <= length pruned -> 1 <= length p) /\
      (cq = quality_func pruned data -> (cq <= quality_func p data)%Z).
Proof.
  induction conditions as [|condition rest IH]; intros pruned cq Hnd Hin; simpl.
  - exists pruned. repeat split.
    + apply incl_refl.
    + lia.
    + intros ->. lia.
  - inversion Hnd as [|? ? Hfresh Hnd']; subst.
    destruct (dict_del_defined condition pruned) as (temp & Hdel).
    { apply Hin. now left. }
    rewrite Hdel. simpl.
    pose proof (dict_del_incl _ _ _ Hdel) as Hsub.
    pose proof (dict_del_length _ _ _ Hdel) as Hlen.
    destruct (Z.leb_spec cq (quality_func temp data)) as [Hacc|Hrej]; simpl.
    + rewrite dict_keys_length.
      destruct (Nat.eqb_spec (length temp) 1) as [Hone|Hmore].
      * exists temp. repeat split; [exact Hsub | lia | intros _; exact Hacc].
      * destruct (IH temp (quality_func temp data) Hnd') as (p & Hp & Hpi & Hpl & Hpq).
        { intros k Hk. eapply dict_del_other_keys; [exact Hdel | | apply Hin; now right].
          intros ->. now apply Hfresh. }
        exists p. repeat split.
        -- exact Hp.
        -- eapply incl_tran; eassumption.
        -- intros H2. apply Hpl. lia.
        -- intros _. specialize (Hpq eq_refl). lia.
    + rewrite dict_keys_length.
      destruct (Nat.eqb_spec (length pruned) 1) as [Hone|Hmore].
      * exists pruned. repeat split; [apply incl_refl | lia | intros ->; lia].
      * destruct (IH pruned cq Hnd') as (p & Hp & Hpi & Hpl & Hpq).
        { intros k Hk. apply Hin. now right. }
        exists p. repeat split; assumption.
Qed.

Lemma apply_dominance_pruning_spec (d : description) (q : Z) :
  wf_dict d ->
  exists p,
    apply_dominance_pruning (d, q) quality_func data = Ok p /\
    incl p d /\
    (d <> [] -> 1 <= length p) /\
    (length d = 1 -> p = d) /\
    (q = quality_func d data -> (q <= quality_func p data)%Z).
Proof.
  intros Hwf. unfold apply_dominance_pruning. simpl fst. simpl snd.
  rewrite dict_keys_length.
  destruct (Nat.eqb_spec (length d) 1) as [Hone|Hmore].
  - exists d. repeat split; [apply incl_refl | lia | intros ->; lia].
  - destruct (prune_loop_spec (dict_keys d) d q Hwf (incl_refl _))
      as (p & Hp & Hpi & Hpl & Hpq).
    exists p. repeat split; try assumption.
    + intros Hne. apply Hpl. destruct d as [|x [|y rest]]; simpl in *; try lia.
      congruence.
    + intros H1. contradiction.
Qed.

(** The break of the loop: a removal that is accepted and leaves one
    condition ends the pruning, whatever keys are still to visit. *)
Lemma prune_loop_stops_at_one (condition : string) (rest : list string)
    (pruned temp : description) (cq : Z) :
  dict_del condition pruned = Ok temp ->
  (cq <= quality_func temp data)%Z -> length temp = 1 ->
  prune_loop quality_func data (condition :: rest) pruned cq = Ok temp.
Proof.
  intros Hdel Hacc Hone. simpl. rewrite Hdel. simpl.
  destruct (Z.leb_spec cq (quality_func temp data)); [| lia]. simpl.
  rewrite dict_keys_length, Hone. reflexivity.
Qed.
End Pruning.

(** C7: when the stored quality is the quality of the description, the
    pruning returns, without an error, a description whose conditions
    all belong to the original and whose recomputed quality is at
    least the original quality. *)
Theorem apply_dominance_pruning_keeps_quality
    (quality_func : quality_fn) (data : DataFrame) (d : description) (q : Z) :
  wf_dict d -> q = quality_func d data ->
  exists p,
    apply_dominance_pruning (d, q) quality_func data = Ok p /\
    incl p d /\
    (quality_func d data <= quality_func p data)%Z.
Proof.
  intros Hwf Hq.
  destruct (apply_dominance_pruning_spec quality_func data d q Hwf)
    as (p & Hp & Hincl & _ & _ & Hqual).
  exists p. repeat split; try assumption.
  rewrite <- Hq. now apply Hqual.
Qed.

Lemma wf_dict_AB : wf_dict d_AB.
Proof.
  unfold wf_dict. simpl. repeat constructor; simpl; intuition discriminate.
Defined.

Lemma apply_dominance_pruning_keeps_quality_witness :
  exists p,
    apply_dominance_pruning (d_AB, 4%Z) coverage_quality ab_data = Ok p /\
    incl p d_AB /\
    (coverage_quality d_AB ab_data <= coverage_quality p ab_data)%Z.
Proof.
  exact (apply_dominance_pruning_keeps_quality coverage_quality ab_data
           d_AB 4 wf_dict_AB eq_refl).
Defined.

(** C8, as the code has it: a description with at least one condition
    never comes back without conditions; one with a single condition,
    like one with none, comes back unchanged; and a removal that
    leaves a single condition ends the loop. *)
Theorem apply_dominance_pruning_floor
    (quality_func : quality_fn) (data : DataFrame) (d : description) (q : Z) :
  wf_dict d ->
  (exists p,
     apply_dominance_pruning (d, q) quality_func data = Ok p /\
     (d <> [] -> 1 <= length p) /\
     (length d <= 1 -> p = d)) /\
  (forall condition rest pruned temp cq,
     dict_del condition pruned = Ok temp ->
     (cq <= quality_func temp data)%Z -> length temp = 1 ->
     prune_loop quality_func data (condition :: rest) pruned cq = Ok temp).
Proof.
  intros Hwf. split.
  - destruct (apply_dominance_pruning_spec quality_func data d q Hwf)
      as (p & Hp & Hincl & Hfloor & Hone & _).
    exists p. repeat split; [exact Hp | exact Hfloor |].
    intros Hle. destruct d as [|x rest].
    + destruct p as [|y p']; [reflexivity |]. destruct (Hincl y). now left.
    + apply Hone. simpl in *. lia.
  - intros. now apply prune_loop_stops_at_one.
Qed.

Lemma apply_dominance_pruning_floor_witness :
  exists p,
    apply_dominance_pruning (d_AB, 4%Z) coverage_quality ab_data = Ok p /\
    (d_AB <> [] -> 1 <= length p) /\
    (length d_AB <= 1 -> p = d_AB).
Proof.
  exact (proj1 (apply_dominance_pruning_floor coverage_quality ab_data
                  d_AB 4 wf_dict_AB)).
Defined.

(** C8 as worded fails on the description without conditions: it is
    returned as it is. *)
Lemma apply_dominance_pruning_empty_input :
  apply_dominance_pruning ([], 10%Z) coverage_quality ab_data = Ok [] /\
  ~ (forall d q p,
       apply_dominance_pruning (d, q) coverage_quality ab_data = Ok p ->
       length p <> 0).
Proof.
  split; [reflexivity |].
  intros H. now apply (H [] 10%Z [] eq_refl).
Qed.

(** ** generate_refinements *)

Section Refinements.
Variable data : DataFrame.
Variable mincov : Z.

Lemma try_refinement_spec (subgroup : description) (column : string) (value : bool) :
  dict_mem column subgroup = false ->
  In column (columns data) ->
  incl (dict_keys subgroup) (columns data) ->
  try_refinement subgroup mincov data column value
  = Ok (if (mincov <=? Z.of_nat (coverage data (subgroup ++ [(column, value)])))%Z
        then [subgroup ++ [(column, value)]] else []).
Proof.
  intros Hfresh Hcol Hkeys. unfold try_refinement. cbv zeta.
  rewrite (dict_merge_fresh column value subgroup Hfresh).
  rewrite query_defined.
  - simpl. unfold coverage. now destruct (_ <=? _)%Z.
  - now destruct subgroup.
  - unfold dict_keys. rewrite map_app. simpl.
    apply incl_app; [exact Hkeys |]. intros k [<-|[]]. exact Hcol.
Qed.

Lemma kept_refinement_cons (column : string) (cols : list string)
    (subgroup r : description) :
  kept_refinement data mincov (column :: cols) subgroup r <->
  (dict_mem column subgroup = false /\
   (exists v, r = subgroup ++ [(column, v)] /\
              (mincov <= Z.of_nat (coverage data r))%Z)) \/
  kept_refinement data mincov cols subgroup r.
Proof.
  unfold kept_refinement. split.
  - intros (c & v & [<-|Hin] & Hfresh & Hr & Hcov).
    + left. eauto.
    + right. exists c, v. auto.
  - intros [(Hfresh & v & Hr & Hcov)|(c & v & Hin & H)].
    + exists column, v. simpl. auto.
    + exists c, v. simpl. auto.
Qed.

(** The refinements are exactly the one-condition extensions, on the
    unconstrained columns, that cover at least [mincov] rows. *)
Lemma refine_columns_spec (cols : list string) (subgroup : description) :
  incl cols (columns data) ->
  incl (dict_keys subgroup) (columns data) ->
  exists rs,
    refine_columns cols subgroup mincov data = Ok rs /\
    forall r, In r rs <-> kept_refinement data mincov cols subgroup r.
Proof.
  intros Hcols Hkeys. induction cols as [|column rest IH]; simpl.
  - exists []. split; [reflexivity |]. intros r. split; [intros [] |].
    intros (c & v & [] & _).
  - destruct IH as (more & Hmore & Hspec).
    { intros c Hc. apply Hcols. now right. }
    destruct (dict_mem column subgroup) eqn:Hmem.
    + exists more. split; [exact Hmore |]. intros r.
      rewrite kept_refinement_cons, Hspec. split; [auto |].
      intros [(Hfresh & _)|H]; [congruence | exact H].
    + assert (Hcol : In column (columns data)) by (apply Hcols; now left).
      rewrite !try_refinement_spec, Hmore by assumption. simpl.
      eexists. split; [reflexivity |]. intros r.
      rewrite kept_refinement_cons, !in_app_iff, Hspec.
      split.
      * intros [Hin|[Hin|Hin]]; [left | left | now right]; split; trivial.
        -- exists true.
           destruct (Z.leb_spec mincov
                       (Z.of_nat (coverage data (subgroup ++ [(column, true)]))));
             [destruct Hin as [<-|[]]; auto | destruct Hin].
        -- exists false.
           destruct (Z.leb_spec mincov
                       (Z.of_nat (coverage data (subgroup ++ [(column, false)]))));
             [destruct Hin as [<-|[]]; auto | destruct Hin].
      * intros [(_ & v & -> & Hcov)|H]; [| now right; right].
        destruct v; [left | right; left];
          match goal with
          | |- In _ (if (?a <=? ?b)%Z then _ else _) =>
              destruct (Z.leb_spec a b); [now left | lia]
          end.
Qed.

Lemma generate_refinements_spec (subgroup : description) :
  incl (dict_keys subgroup) (columns data) ->
  exists rs,
    generate_refinements subgroup mincov data = Ok rs /\
    forall r, In r rs <-> kept_refinement data mincov (columns data) subgroup r.
Proof.
  intros Hkeys. apply refine_columns_spec; [apply incl_refl | exact Hkeys].
Qed.

Lemma kept_refinement_beam_ok (cols : list string) (b r : description) :
  incl cols (columns data) -> beam_ok data b ->
  kept_refinement data mincov cols b r -> beam_ok data r.
Proof.
  intros Hcols (Hwf & Hkeys) (c & v & Hin & Hfresh & -> & _).
  unfold beam_ok, wf_dict, dict_keys in *. rewrite map_app. simpl. split.
  - apply NoDup_app; [exact Hwf | repeat constructor; intros [] |].
    intros k Hk [<-|[]]. apply dict_mem_false in Hfresh. now apply Hfresh.
  - apply incl_app; [exact Hkeys |]. intros k [<-|[]]. now apply Hcols.
Qed.

Lemma kept_refinement_mined (cols : list string) (b r : description) :
  incl cols (columns data) -> beam_ok data b ->
  kept_refinement data mincov cols b r -> mined data mincov r.
Proof.
  intros Hcols Hb Hr.
  destruct (kept_refinement_beam_ok cols b r Hcols Hb Hr) as (Hwf & _).
  destruct Hr as (c & v & _ & _ & -> & Hcov).
  repeat split; [exact Hwf | now destruct b | exact Hcov].
Qed.

Lemma extend_refinements_spec (Beam : list description) :
  Forall (beam_ok data) Beam ->
  exists Cands,
    extend_refinements Beam mincov data = Ok Cands /\
    forall c, In c Cands <->
              exists b, In b Beam /\
                        kept_refinement data mincov (columns data) b c.
Proof.
  induction 1 as [|b rest Hb _ IH]; simpl.
  - exists []. split; [reflexivity |]. intros c. split; [intros [] |].
    intros (b & [] & _).
  - destruct (generate_refinements_spec b (proj2 Hb)) as (here & Hhere & Hspec).
    destruct IH as (more & Hmore & Hmspec).
    rewrite Hhere, Hmore. simpl. eexists. split; [reflexivity |].
    intros c. rewrite in_app_iff, Hspec, Hmspec. split.
    + intros [H|(b' & Hin & H)]; [exists b | exists b']; auto.
    + intros (b' & [<-|Hin] & H); [now left | right; eauto].
Qed.
End Refinements.

(** ** The depth loop and the final steps of dssd *)

(** Whatever a call retains was retained before or is the new entry. *)
Lemma update_top_k_incl (R R' : list entry) (j : Z) (c : description) (q : Z) :
  update_top_k R j c q = Ok R' -> incl R' (R ++ [(c, q)]).
Proof.
  intros H. rewrite update_top_k_forgets_log in H.
  destruct (Z.lt_ge_cases (Z.of_nat (length R)) j) as [Hroom|Hfull].
  - rewrite update_top_k_log_room in H by assumption.
    injection H as <-. apply incl_refl.
  - destruct R as [|x rest].
    + unfold update_top_k_log in H. simpl in H.
      destruct (Z.ltb_spec 0 j); [simpl in Hfull; lia | discriminate].
    + destruct (update_top_k_log_full (x :: rest) j c q Hfull)
        as (pre & w & post & _ & Hsplit & _ & _ & Hrun); [discriminate |].
      rewrite Hrun in H. destruct (snd w <? q)%Z; injection H as <-.
      * rewrite Hsplit. intros e He. rewrite !in_app_iff in *. simpl.
        intuition.
      * apply incl_appl, incl_refl.
Qed.

Lemma update_top_k_total (R : list entry) (j : Z) (c : description) (q : Z) :
  (1 <= j)%Z -> exists R', update_top_k R j c q = Ok R'.
Proof.
  intros Hj. rewrite update_top_k_forgets_log.
  destruct (Z.lt_ge_cases (Z.of_nat (length R)) j) as [Hroom|Hfull].
  - rewrite update_top_k_log_room by assumption. simpl. eauto.
  - assert (HR : R <> []) by (intros ->; simpl in Hfull; lia).
    destruct (update_top_k_log_full R j c q Hfull HR)
      as (pre & w & post & _ & _ & _ & _ & Hrun).
    rewrite Hrun. destruct (snd w <? q)%Z; simpl; eauto.
Qed.

Section Search.
Variable data : DataFrame.
Variable quality_func : quality_fn.
Variable j mincov : Z.
Variable P : params.

Lemma retain_all_update_all (Cands : list description) (R : list entry) :
  retain_all quality_func data j Cands R
  = update_all j (map (score quality_func data) Cands) R.
Proof.
  revert R. induction Cands as [|c rest IH]; intros R; simpl; [reflexivity |].
  destruct (update_top_k R j c (quality_func c data)); simpl; [apply IH | reflexivity].
Qed.

Lemma retain_all_preserves (Q : description -> Prop) (Cands : list description) :
  forall R R',
    retain_all quality_func data j Cands R = Ok R' ->
    Forall Q Cands -> Forall (fun e => Q (fst e)) R ->
    Forall (fun e => Q (fst e)) R'.
Proof.
  induction Cands as [|c rest IH]; simpl; intros R R' H HC HR.
  - now injection H as <-.
  - inv_bind H. inversion HC; subst.
    apply (IH a R' H); [assumption |].
    apply Forall_forall. intros e He.
    apply (update_top_k_incl _ _ _ _ _ Ha) in He.
    apply in_app_or in He. destruct He as [He|[<-|[]]]; [| assumption].
    rewrite Forall_forall in HR. now apply HR.
Qed.

Lemma retain_all_total (Cands : list description) :
  (1 <= j)%Z -> forall R, exists R', retain_all quality_func data j Cands R = Ok R'.
Proof.
  intros Hj. induction Cands as [|c rest IH]; simpl; intros R; [eauto |].
  destruct (update_top_k_total R j c (quality_func c data) Hj) as (R1 & ->).
  simpl. apply IH.
Qed.

(** What the loop keeps true: the beam holds descriptions over the
    columns, the retained list holds mined descriptions. *)
Lemma depth_loop_preserves (rounds : nat) :
  forall R Beam R',
    depth_loop rounds data quality_func j mincov P R Beam = Ok R' ->
    Forall (beam_ok data) Beam ->
    Forall (fun e => mined data mincov (fst e)) R ->
    Forall (fun e => mined data mincov (fst e)) R'.
Proof.
  induction rounds as [|rounds IH]; simpl; intros R Beam R' H HB HR.
  - now injection H as <-.
  - destruct (extend_refinements_spec data mincov Beam HB) as (Cands & HC & Hspec).
    rewrite HC in H. simpl in H. inv_bind H.
    assert (Hmined : Forall (mined data mincov) Cands).
    { apply Forall_forall. intros c Hc. apply Hspec in Hc.
      destruct Hc as (b & Hb & Hk). rewrite Forall_forall in HB.
      eapply kept_refinement_mined; [apply incl_refl | apply HB, Hb | exact Hk]. }
    apply (IH a _ R' H).
    + apply Forall_forall. intros c Hc.
      apply subgroup_selection_incl in Hc. apply Hspec in Hc.
      destruct Hc as (b & Hb & Hk). rewrite Forall_forall in HB.
      eapply kept_refinement_beam_ok; [apply incl_refl | apply HB, Hb | exact Hk].
    + eapply retain_all_preserves; eassumption.
Qed.

Lemma depth_loop_total (rounds : nat) :
  (1 <= j)%Z ->
  forall R Beam,
    Forall (beam_ok data) Beam ->
    exists R', depth_loop rounds data quality_func j mincov P R Beam = Ok R'.
Proof.
  intros Hj. induction rounds as [|rounds IH]; simpl; intros R Beam HB; [eauto |].
  destruct (extend_refinements_spec data mincov Beam HB) as (Cands & HC & Hspec).
  rewrite HC. simpl.
  destruct (retain_all_total Cands Hj R) as (R1 & ->). simpl.
  apply IH. apply Forall_forall. intros c Hc.
  apply subgroup_selection_incl in Hc. apply Hspec in Hc.
  destruct Hc as (b & Hb & Hk). rewrite Forall_forall in HB.
  eapply kept_refinement_beam_ok; [apply incl_refl | apply HB, Hb | exact Hk].
Qed.

Lemma prune_all_spec (R : list entry) :
  Forall (fun e => mined data mincov (fst e)) R ->
  exists ps,
    prune_all quality_func data R = Ok ps /\
    Forall (fun p => p <> [] /\ (mincov <= Z.of_nat (coverage data p))%Z) ps.
Proof.
  induction 1 as [|[d q] rest (Hwf & Hne & Hcov) _ IH]; simpl.
  - eauto.
  - simpl in *.
    destruct (apply_dominance_pruning_spec quality_func data d q Hwf)
      as (p & -> & Hincl & Hfloor & _).
    destruct IH as (ps & -> & Hps). simpl.
    eexists. split; [reflexivity |]. constructor; [| exact Hps]. split.
    + specialize (Hfloor Hne). intros ->. simpl in Hfloor. lia.
    + pose proof (coverage_incl data p d Hincl). lia.
Qed.
End Search.

Lemma dedup_loop_incl (subgroups : list description) :
  forall seen, incl (dedup_loop subgroups seen) subgroups.
Proof.
  induction subgroups as [|d rest IH]; simpl; intros seen.
  - apply incl_refl.
  - destruct (existsb _ seen).
    + apply incl_tl, IH.
    + apply incl_cons; [now left | apply incl_tl, IH].
Qed.

Lemma remove_duplicates_incl (subgroups : list description) :
  incl (remove_duplicates subgroups) subgroups.
Proof.
  apply dedup_loop_incl.
Qed.

Lemma beam_ok_start (data : DataFrame) : Forall (beam_ok data) [[]].
Proof.
  repeat constructor. intros k [].
Qed.

Lemma dssd_retained_set (S : DataFrame) (quality_func : quality_fn)
    (j k mincov maxdepth : Z) (P : params) :
  dssd S quality_func j k mincov maxdepth P
  = (R <- retained_set S quality_func j mincov maxdepth P ;;
     Ok (Py.slice_to k (subgroup_selection R quality_func P S))).
Proof.
  unfold dssd, retained_set.
  destruct (depth_loop _ _ _ _ _ _ _ _); simpl; [| reflexivity].
  destruct (prune_all _ _ _); reflexivity.
Qed.

(** Every run of [dssd] that returns gives at most [k] descriptions,
    for [k >= 0], each with at least one condition and enough rows. *)
Lemma dssd_returned (S : DataFrame) (quality_func : quality_fn)
    (j k mincov maxdepth : Z) (P : params) (out : list description) :
  (0 <= k)%Z ->
  dssd S quality_func j k mincov maxdepth P = Ok out ->
  (Z.of_nat (length out) <= k)%Z /\
  Forall (fun d => d <> [] /\ (mincov <= Z.of_nat (coverage S d))%Z) out.
Proof.
  intros Hk H. unfold dssd in H. inv_bind H. inv_bind H. injection H as <-.
  split.
  - rewrite slice_to_length_nonneg by assumption. lia.
  - apply (depth_loop_preserves S quality_func j mincov P) in Ha;
      [| apply beam_ok_start | constructor].
    destruct (prune_all_spec S quality_func mincov a Ha) as (ps & Hps & Hall).
    rewrite Hps in Ha0. injection Ha0 as <-.
    apply Forall_forall. intros d Hd.
    apply slice_to_incl, subgroup_selection_incl, remove_duplicates_incl in Hd.
    rewrite Forall_forall in Hall. now apply Hall.
Qed.

Lemma dssd_total (S : DataFrame) (quality_func : quality_fn)
    (j k mincov maxdepth : Z) (P : params) :
  (1 <= j)%Z -> exists out, dssd S quality_func j k mincov maxdepth P = Ok out.
Proof.
  intros Hj. unfold dssd.
  destruct (depth_loop_total S quality_func j mincov P (Z.to_nat maxdepth) Hj
              [] [[]] (beam_ok_start S)) as (R & HR).
  rewrite HR. simpl.
  apply (depth_loop_preserves S quality_func j mincov P) in HR;
    [| apply beam_ok_start | constructor].
  destruct (prune_all_spec S quality_func mincov R HR) as (ps & -> & _).
  simpl. eauto.
Qed.

(** C1: on a dataset whose labels are plain and pairwise different
    (they go unquoted into the query text), with [j], [k] and [mincov]
    at least 1, [dssd] returns a list, of at most [k] descriptions,
    each satisfied by at least [mincov] rows of the dataset. *)
Theorem dssd_output_bound (S : DataFrame) (quality_func : quality_fn)
    (j k mincov maxdepth : Z) (P : params) :
  plain_frame S = true ->
  (1 <= j)%Z -> (1 <= k)%Z -> (1 <= mincov)%Z ->
  exists out,
    dssd S quality_func j k mincov maxdepth P = Ok out /\
    (Z.of_nat (length out) <= k)%Z /\
    Forall (fun d => (mincov <= Z.of_nat (coverage S d))%Z) out.
Proof.
  intros _ Hj Hk Hmincov.
  destruct (dssd_total S quality_func j k mincov maxdepth P Hj) as (out & Hout).
  exists out. split; [exact Hout |].
  destruct (dssd_returned S quality_func j k mincov maxdepth P out) as (Hlen & Hall);
    [lia | exact Hout |].
  split; [exact Hlen |].
  eapply Forall_impl; [| exact Hall]. now intros d (_ & H).
Qed.

Lemma dssd_output_bound_witness :
  exists out,
    dssd ab_data coverage_quality 4 2 3 2 [("beam_width", 2%Z)] = Ok out /\
    (Z.of_nat (length out) <= 2)%Z /\
    Forall (fun d => (3 <= Z.of_nat (coverage ab_data d))%Z) out.
Proof.
  apply (dssd_output_bound ab_data coverage_quality 4 2 3 2
           [("beam_width", 2%Z)]); [reflexivity | lia | lia | lia].
Defined.

(** C10: on an empty list and with [j <= 0], [update_top_k] raises the
    [ValueError] of [min] on an empty sequence; so, on a dataset whose
    labels are plain and pairwise different (so that the queries of
    the first round go through), [dssd] with [j <= 0] raises it in its
    first round as soon as the loop runs and one refinement of the
    empty description covers [mincov] rows. *)
Theorem dssd_nonpositive_j_raises (j : Z) :
  (j <= 0)%Z ->
  (forall c q, update_top_k [] j c q = Raise ValueError) /\
  (forall S quality_func k mincov maxdepth P column value,
     plain_frame S = true ->
     (1 <= maxdepth)%Z ->
     In column (columns S) ->
     (mincov <= Z.of_nat (coverage S [(column, value)]))%Z ->
     dssd S quality_func j k mincov maxdepth P = Raise ValueError).
Proof.
  intros Hj. split.
  - intros c q. now apply update_top_k_empty_raises.
  - intros S quality_func k mincov maxdepth P column value _ Hdepth Hcol Hcov.
    unfold dssd.
    destruct (Z.to_nat maxdepth) as [|rounds] eqn:Hrounds; [lia |].
    simpl depth_loop.
    destruct (extend_refinements_spec S mincov [[]] (beam_ok_start S))
      as (Cands & HC & Hspec).
    simpl extend_refinements in HC. rewrite HC. simpl.
    destruct Cands as [|c rest].
    + exfalso. apply (proj2 (Hspec [(column, value)])).
      exists []. split; [now left |].
      exists column, value. repeat split; assumption.
    + simpl. now rewrite update_top_k_empty_raises.
Qed.

Lemma dssd_nonpositive_j_raises_witness :
  update_top_k [] 0 [("A", true)] 7 = Raise ValueError /\
  dssd ab_data coverage_quality 0 2 3 2 [("beam_width", 2%Z)] = Raise ValueError.
Proof.
  assert (Hj : (0 <= 0)%Z) by lia.
  destruct (dssd_nonpositive_j_raises 0 Hj) as (Hupdate & Hdssd).
  split; [apply Hupdate |].
  apply (Hdssd ab_data coverage_quality 2%Z 3%Z 2%Z [("beam_width", 2%Z)] "A" true).
  - reflexivity.
  - lia.
  - simpl. now left.
  - vm_compute. discriminate.
Defined.

(** The final selection goes through the same [P] as the beam, so the
    output never has more entries than a non-negative [beam_width]. *)
Lemma dssd_output_within_beam_width (S : DataFrame) (quality_func : quality_fn)
    (j k mincov maxdepth bw : Z) (P : params) (out : list description) :
  dict_get "beam_width" P = Some bw -> (0 <= bw)%Z ->
  dssd S quality_func j k mincov maxdepth P = Ok out ->
  (Z.of_nat (length out) <= bw)%Z.
Proof.
  intros Hbw Hpos H. rewrite dssd_retained_set in H. inv_bind H.
  injection H as <-.
  pose proof (subgroup_selection_at_most_width a quality_func P S bw Hbw Hpos).
  pose proof (slice_to_incl k (subgroup_selection a quality_func P S)) as Hincl.
  assert (Hle : length (Py.slice_to k (subgroup_selection a quality_func P S))
                <= length (subgroup_selection a quality_func P S)).
  { rewrite slice_to_prefix. rewrite length_firstn. lia. }
  lia.
Qed.

(** C2 on the ten-row dataset with [j = 4], [k = 2], [mincov = 3],
    [maxdepth = 2] and [beam_width = 1]: the pruned and deduplicated
    set holds three descriptions, yet the output holds one. *)
Theorem dssd_final_selection_cut_by_beam_width :
  retained_set ab_data coverage_quality 4 3 2 [("beam_width", 1%Z)]
  = Ok [[("A", true)]; [("B", true)]; [("B", false)]] /\
  dssd ab_data coverage_quality 4 2 3 2 [("beam_width", 1%Z)]
  = Ok [[("A", true)]].
Proof.
  split; vm_compute; reflexivity.
Qed.

(** C3 on two descriptions with the same conditions in two orders:
    they are equal dictionaries with different texts, so
    [remove_duplicates] keeps both, and both reach the output of
    [dssd] on the ten-row dataset. *)
Theorem remove_duplicates_keeps_reordered :
  dict_eqb d_AB d_BA = true /\
  (forall c, In c d_AB <-> In c d_BA) /\
  dict_str d_AB = "{'A': True, 'B': True}" /\
  dict_str d_BA = "{'B': True, 'A': True}" /\
  remove_duplicates [d_AB; d_BA] = [d_AB; d_BA] /\
  dssd ab_data coverage_times_size 4 2 3 2 [("beam_width", 4%Z)]
  = Ok [d_AB; d_BA].
Proof.
  repeat split; try (vm_compute; reflexivity); simpl; intuition.
Qed.

(** * Further properties of the mining functions *)

(** ** Sub-sequences *)

Section Subseq.
Context {A : Type}.

Lemma subseq_refl (l : list A) : subseq l l.
Proof.
  induction l; constructor; assumption.
Qed.

Lemma subseq_nil_l (l : list A) : subseq [] l.
Proof.
  induction l; constructor; assumption.
Qed.

Lemma subseq_trans (l1 l2 l3 : list A) :
  subseq l1 l2 -> subseq l2 l3 -> subseq l1 l3.
Proof.
  intros H12 H23. revert l1 H12.
  induction H23 as [|x l2 l3 _ IH|x l2 l3 _ IH]; intros l1 H12.
  - exact H12.
  - constructor. now apply IH.
  - inversion H12; subst.
    + constructor. now apply IH.
    + apply subseq_keep. now apply IH.
Qed.

Lemma subseq_app (l1 l1' l2 l2' : list A) :
  subseq l1 l1' -> subseq l2 l2' -> subseq (l1 ++ l2) (l1' ++ l2').
Proof.
  induction 1 as [|x l1 l1' _ IH|x l1 l1' _ IH]; intros H2; simpl.
  - exact H2.
  - apply subseq_skip. now apply IH.
  - apply subseq_keep. now apply IH.
Qed.

Lemma subseq_drop_middle (pre post : list A) (x : A) :
  subseq (pre ++ post) (pre ++ x :: post).
Proof.
  apply subseq_app; [apply subseq_refl | constructor; apply subseq_refl].
Qed.

Lemma subseq_length (l1 l2 : list A) : subseq l1 l2 -> length l1 <= length l2.
Proof.
  induction 1; simpl; lia.
Qed.

Lemma subseq_incl (l1 l2 : list A) : subseq l1 l2 -> incl l1 l2.
Proof.
  induction 1 as [|x l1 l2 _ IH|x l1 l2 _ IH]; intros y Hy.
  - exact Hy.
  - right. now apply IH.
  - destruct Hy as [<-|Hy]; [now left | right; now apply IH].
Qed.

Lemma subseq_map {B : Type} (f : A -> B) (l1 l2 : list A) :
  subseq l1 l2 -> subseq (map f l1) (map f l2).
Proof.
  induction 1; simpl; constructor; assumption.
Qed.

Lemma subseq_NoDup (l1 l2 : list A) : subseq l1 l2 -> NoDup l2 -> NoDup l1.
Proof.
  induction 1 as [|x l1 l2 Hs IH|x l1 l2 Hs IH]; intros Hnd.
  - exact Hnd.
  - inversion Hnd; subst. now apply IH.
  - inversion Hnd; subst. constructor; [| now apply IH].
    intros Hin. apply (subseq_incl _ _ Hs) in Hin. contradiction.
Qed.

Lemma subseq_firstn (n : nat) (l : list A) : subseq (firstn n l) l.
Proof.
  revert n. induction l as [|x l IH]; intros [|n]; simpl.
  - constructor.
  - constructor.
  - apply subseq_nil_l.
  - apply subseq_keep, IH.
Qed.
End Subseq.

(** ** generate_refinements, in full *)

Section RefinementsExact.
Variable data : DataFrame.
Variable mincov : Z.

Lemma refine_columns_exact (cols : list string) (subgroup : description) :
  incl cols (columns data) ->
  incl (dict_keys subgroup) (columns data) ->
  refine_columns cols subgroup mincov data
  = Ok (flat_map (refinements_on data mincov subgroup)
          (unconstrained cols subgroup)).
Proof.
  intros Hcols Hkeys. induction cols as [|column rest IH]; simpl; [reflexivity |].
  assert (Hrest : incl rest (columns data)) by (intros c Hc; apply Hcols; now right).
  specialize (IH Hrest).
  destruct (dict_mem column subgroup) eqn:Hmem; simpl; [exact IH |].
  assert (Hcol : In column (columns data)) by (apply Hcols; now left).
  rewrite !try_refinement_spec, IH by assumption. simpl.
  unfold refinements_on at 2. simpl.
  destruct (_ <=? _)%Z; destruct (_ <=? _)%Z; reflexivity.
Qed.

Lemma refine_columns_constrained (cols : list string) (subgroup : description) :
  (forall c, In c cols -> dict_mem c subgroup = true) ->
  refine_columns cols subgroup mincov data = Ok [].
Proof.
  induction cols as [|column rest IH]; simpl; intros H; [reflexivity |].
  rewrite (H column) by now left. apply IH. intros c Hc. apply H. now right.
Qed.

Lemma refinements_on_length (subgroup : description) (column : string) :
  length (refinements_on data mincov subgroup column) <= 2 /\
  ((mincov <= 0)%Z -> length (refinements_on data mincov subgroup column) = 2).
Proof.
  unfold refinements_on. simpl.
  destruct (Z.leb_spec mincov
              (Z.of_nat (coverage data (subgroup ++ [(column, true)]))));
    destruct (Z.leb_spec mincov
                (Z.of_nat (coverage data (subgroup ++ [(column, false)]))));
    simpl; split; lia.
Qed.

Lemma flat_map_refinements_length (subgroup : description) (cols : list string) :
  length (flat_map (refinements_on data mincov subgroup) cols) <= 2 * length cols /\
  ((mincov <= 0)%Z ->
   length (flat_map (refinements_on data mincov subgroup) cols) = 2 * length cols).
Proof.
  induction cols as [|c rest (IHle & IHeq)]; simpl; [split; lia |].
  rewrite length_app.
  destruct (refinements_on_length subgroup c) as (Hle & Heq).
  split; [lia |]. intros Hm. rewrite (Heq Hm), (IHeq Hm). lia.
Qed.
End RefinementsExact.

(** X1: on a dataset whose labels are plain and pairwise different
    and a subgroup whose columns belong to it, [generate_refinements]
    returns, without an error and in this order: for every free column
    in column order, the subgroup followed by [column == True], then
    by [column == False], each kept if it covers at least [mincov]
    rows. *)
Theorem generate_refinements_exact (data : DataFrame) (mincov : Z)
    (subgroup : description) :
  plain_frame data = true ->
  incl (dict_keys subgroup) (columns data) ->
  generate_refinements subgroup mincov data
  = Ok (flat_map (refinements_on data mincov subgroup)
          (unconstrained (columns data) subgroup)).
Proof.
  intros _ Hkeys. apply refine_columns_exact; [apply incl_refl | exact Hkeys].
Qed.

Lemma generate_refinements_exact_witness :
  generate_refinements [("A", true)] 4 ab_data
  = Ok [[("A", true); ("B", true)]].
Proof.
  assert (H : incl (dict_keys [("A", true)]) (columns ab_data)).
  { intros k [<-|[]]. simpl. now left. }
  exact (generate_refinements_exact ab_data 4 [("A", true)] eq_refl H).
Defined.



(** X3: on a free column the two refinements split the rows of the
    subgroup: the rows with [True] and the rows with [False] are
    together as many as the rows of the subgroup. *)
Theorem refinements_split_coverage (data : DataFrame) (subgroup : description)
    (column : string) :
  dict_mem column subgroup = false ->
  coverage data (dict_merge subgroup [(column, true)])
  + coverage data (dict_merge subgroup [(column, false)])
  = coverage data subgroup.
Proof.
  intros Hfresh. rewrite !dict_merge_fresh by assumption.
  unfold coverage. rewrite !matches_extend.
  etransitivity;
    [| apply (filter_length (fun r : row => Bool.eqb (r column) true)
                (matches data subgroup))].
  f_equal. f_equal. apply filter_ext. intros r. now destruct (r column).
Qed.

Lemma refinements_split_coverage_witness :
  coverage ab_data (dict_merge [("A", true)] [("B", true)])
  + coverage ab_data (dict_merge [("A", true)] [("B", false)])
  = coverage ab_data [("A", true)].
Proof.
  exact (refinements_split_coverage ab_data [("A", true)] "B" eq_refl).
Defined.

(** X4: a subgroup that constrains every column of the dataset has no
    refinement; no query is evaluated, so nothing can be raised,
    whatever else the subgroup mentions. *)
Theorem generate_refinements_all_constrained (data : DataFrame) (mincov : Z)
    (subgroup : description) :
  (forall c, In c (columns data) -> dict_mem c subgroup = true) ->
  generate_refinements subgroup mincov data = Ok [].
Proof.
  apply refine_columns_constrained.
Qed.

Lemma generate_refinements_all_constrained_witness :
  generate_refinements [("B", true); ("Z", false); ("A", true)] 0 ab_data = Ok [].
Proof.
  apply generate_refinements_all_constrained.
  intros c [<-|[<-|[]]]; reflexivity.
Defined.

(** X5: there are at most two refinements per free column, and
    exactly two per free column when [mincov <= 0]. *)
Theorem generate_refinements_count (data : DataFrame) (mincov : Z)
    (subgroup : description) (rs : list description) :
  incl (dict_keys subgroup) (columns data) ->
  generate_refinements subgroup mincov data = Ok rs ->
  length rs <= 2 * length (unconstrained (columns data) subgroup) /\
  ((mincov <= 0)%Z ->
   length rs = 2 * length (unconstrained (columns data) subgroup)).
Proof.
  intros Hkeys Hrs. unfold generate_refinements in Hrs.
  rewrite (refine_columns_exact data mincov (columns data) subgroup
             (incl_refl _) Hkeys) in Hrs.
  injection Hrs as <-. apply flat_map_refinements_length.
Qed.

Lemma generate_refinements_count_witness :
  length [[("A", true); ("B", true)]; [("A", true); ("B", false)]]
  <= 2 * length (unconstrained (columns ab_data) [("A", true)]) /\
  ((0 <= 0)%Z ->
   length [[("A", true); ("B", true)]; [("A", true); ("B", false)]]
   = 2 * length (unconstrained (columns ab_data) [("A", true)])).
Proof.
  assert (H : incl (dict_keys [("A", true)]) (columns ab_data)).
  { intros k [<-|[]]. simpl. now left. }
  exact (generate_refinements_count ab_data 0 [("A", true)]
           [[("A", true); ("B", true)]; [("A", true); ("B", false)]] H eq_refl).
Defined.

(** ** update_top_k, in full *)

(** The outcomes of a call that returns. *)
Lemma update_top_k_cases (R R' : list entry) (j : Z) (c : description) (q : Z) :
  update_top_k R j c q = Ok R' ->
  ((Z.of_nat (length R) < j)%Z /\ R' = R ++ [(c, q)]) \/
  ((j <= Z.of_nat (length R))%Z /\
   exists pre w post,
     R = pre ++ w :: post /\
     Forall (fun e => (snd w < snd e)%Z) pre /\
     Forall (fun e => (snd w <= snd e)%Z) post /\
     (((snd w < q)%Z /\ R' = pre ++ post ++ [(c, q)]) \/
      ((q <= snd w)%Z /\ R' = R))).
Proof.
  intros H. rewrite update_top_k_forgets_log in H.
  destruct (Z.lt_ge_cases (Z.of_nat (length R)) j) as [Hroom|Hfull].
  - left. rewrite update_top_k_log_room in H by assumption.
    injection H as <-. auto.
  - right. split; [exact Hfull |].
    destruct R as [|x rest].
    + unfold update_top_k_log in H. simpl in H.
      destruct (Z.ltb_spec 0 j); [simpl in Hfull; lia | discriminate].
    + destruct (update_top_k_log_full (x :: rest) j c q Hfull)
        as (pre & w & post & _ & Hsplit & Hpre & Hpost & Hrun); [discriminate |].
      rewrite Hrun in H. exists pre, w, post. repeat split; try assumption.
      destruct (Z.ltb_spec (snd w) q); injection H as <-; auto.
Qed.

Lemma update_top_k_nonempty_total (R : list entry) (j : Z) (c : description) (q : Z) :
  R <> [] -> exists R', update_top_k R j c q = Ok R'.
Proof.
  intros HR. rewrite update_top_k_forgets_log.
  destruct (Z.lt_ge_cases (Z.of_nat (length R)) j) as [Hroom|Hfull].
  - rewrite update_top_k_log_room by assumption. simpl. eauto.
  - destruct (update_top_k_log_full R j c q Hfull HR)
      as (pre & w & post & _ & _ & _ & _ & Hrun).
    rewrite Hrun. destruct (snd w <? q)%Z; simpl; eauto.
Qed.

(** X6: the only way for [update_top_k] to raise is the [ValueError]
    of [min] on an empty list, which happens exactly when the list is
    empty and [j <= 0]. *)
Theorem update_top_k_raises_iff (R : list entry) (j : Z) (c : description)
    (q : Z) (e : exn) :
  update_top_k R j c q = Raise e <-> (R = [] /\ (j <= 0)%Z /\ e = ValueError).
Proof.
  split.
  - intros H. destruct R as [|x rest].
    + destruct (Z.lt_ge_cases 0 j) as [Hpos|Hneg].
      * destruct (update_top_k_total [] j c q) as (R' & HR'); [lia | congruence].
      * rewrite update_top_k_empty_raises in H by lia.
        injection H as <-. repeat split. lia.
    + destruct (update_top_k_nonempty_total (x :: rest) j c q) as (R' & HR');
        [discriminate | congruence].
  - intros (-> & Hj & ->). now apply update_top_k_empty_raises.
Qed.

Lemma update_top_k_grows_or_keeps (R R' : list entry) (j : Z) (c : description)
    (q : Z) :
  update_top_k R j c q = Ok R' ->
  length R' = if (Z.of_nat (length R) <? j)%Z then S (length R) else length R.
Proof.
  intros H. apply update_top_k_cases in H.
  destruct H as [(Hroom & ->)|(Hfull & pre & w & post & Hsplit & _ & _ & Hout)].
  - destruct (Z.ltb_spec (Z.of_nat (length R)) j); [| lia].
    rewrite length_app. simpl. lia.
  - destruct (Z.ltb_spec (Z.of_nat (length R)) j); [lia |].
    destruct Hout as [(_ & ->)|(_ & ->)]; [| reflexivity].
    rewrite Hsplit. repeat rewrite length_app. simpl. lia.
Qed.

Lemma update_top_k_raises_iff_witness :
  update_top_k [] 0 d_AB 8 = Raise ValueError.
Proof.
  apply (proj2 (update_top_k_raises_iff [] 0 d_AB 8 ValueError)).
  repeat split. lia.
Defined.

(** X7: a call that returns adds one entry while fewer than [j] are
    held and leaves the number of entries unchanged otherwise, also on
    a list that is longer than [j]. *)
Theorem update_top_k_length (R R' : list entry) (j : Z) (c : description) (q : Z) :
  update_top_k R j c q = Ok R' ->
  length R' = if (Z.of_nat (length R) <? j)%Z then S (length R) else length R.
Proof.
  apply update_top_k_grows_or_keeps.
Qed.

Lemma update_top_k_length_witness :
  length [([("B", true)], 7%Z); ([("A", true)], 5%Z)]
  = if (Z.of_nat (length [([("A", false)], 3%Z); ([("B", true)], 7%Z)]) <? 2)%Z
    then 3 else 2.
Proof.
  exact (update_top_k_length [([("A", false)], 3%Z); ([("B", true)], 7%Z)]
           [([("B", true)], 7%Z); ([("A", true)], 5%Z)] 2 [("A", true)] 5 eq_refl).
Defined.

(** The invariant behind the top-[j] property: while there is room
    every inserted entry is retained; afterwards an inserted entry is
    retained or no better than any retained one. *)
Lemma update_all_best (j : Z) (ins : list entry) :
  (1 <= j)%Z ->
  forall R seen,
    (Z.of_nat (length R) <= j)%Z ->
    ((Z.of_nat (length R) < j)%Z -> incl seen R) ->
    (forall e, In e seen -> In e R \/ forall r, In r R -> (snd e <= snd r)%Z) ->
    Z.of_nat (length R) = Z.min j (Z.of_nat (length seen)) ->
    incl R seen ->
    exists R',
      update_all j ins R = Ok R' /\
      Z.of_nat (length R') = Z.min j (Z.of_nat (length (seen ++ ins))) /\
      incl R' (seen ++ ins) /\
      (forall e, In e (seen ++ ins) ->
                 In e R' \/ forall r, In r R' -> (snd e <= snd r)%Z).
Proof.
  intros Hj. induction ins as [|[c q] rest IH]; intros R seen Hlen Hroom Hbest Hcount Hsub.
  - exists R. simpl. rewrite app_nil_r. auto.
  - simpl.
    destruct (update_top_k_total R j c q Hj) as (R1 & HR1). rewrite HR1. simpl.
    pose proof (update_top_k_grows_or_keeps _ _ _ _ _ HR1) as Hlen1.
    assert (Hlen1' : ((Z.of_nat (length R) < j)%Z /\ length R1 = S (length R)) \/
                     ((j <= Z.of_nat (length R))%Z /\ length R1 = length R)).
    { revert Hlen1.
      match goal with
      | |- context [(?a <? ?b)%Z] => destruct (Z.ltb_spec a b)
      end; intros; unfold entry in *; lia. }
    clear Hlen1.
    pose proof (update_top_k_cases _ _ _ _ _ HR1) as Hcases.
    unfold entry in *.
    pose proof (IH R1 (seen ++ [(c, q)])) as IH'.
    rewrite <- app_assoc in IH'. simpl in IH'. apply IH'.
    + lia.
    + intros Hroom1.
      destruct Hcases as [(Hr & ->)|(Hfull & _)].
      * apply incl_app; [apply incl_appl, Hroom, Hr | apply incl_appr, incl_refl].
      * exfalso. lia.
    + intros e He. apply in_app_or in He.
      destruct Hcases as [(Hr & ->)|(Hfull & pre & w & post & Hsplit & Hpre & Hpost & Hout)].
      * left. apply in_or_app.
        destruct He as [He|He]; [left; now apply Hroom | now right].
      * assert (Hw : forall r, In r R -> (snd w <= snd r)%Z).
        { intros r Hr. rewrite Hsplit in Hr. apply in_app_or in Hr.
          rewrite Forall_forall in Hpre, Hpost.
          destruct Hr as [Hr|[<-|Hr]];
            [apply Hpre in Hr | | apply Hpost in Hr]; lia. }
        assert (Hw_in : In w R) by (rewrite Hsplit; apply in_elt).
        destruct Hout as [(Hacc & ->)|(Hrej & ->)].
        -- assert (Hkept : forall r, In r (pre ++ post ++ [(c, q)]) ->
                                      (snd w <= snd r)%Z).
           { intros r Hr. rewrite app_assoc in Hr. apply in_app_or in Hr.
             destruct Hr as [Hr|[<-|[]]]; [| simpl; lia].
             apply Hw. rewrite Hsplit. apply in_app_or in Hr.
             apply in_or_app. destruct Hr; [now left | right; now right]. }
           destruct He as [He|[<-|[]]].
           ++ destruct (Hbest e He) as [HeR|Hlow].
              ** rewrite Hsplit in HeR. apply in_app_or in HeR.
                 destruct HeR as [HeR|[<-|HeR]].
                 --- left. apply in_or_app. now left.
                 --- right. exact Hkept.
                 --- left. apply in_or_app. right. apply in_or_app. now left.
              ** right. intros r Hr. specialize (Hlow w Hw_in).
                 specialize (Hkept r Hr). lia.
           ++ left. rewrite app_assoc. apply in_or_app. right. now left.
        -- destruct He as [He|[<-|[]]]; [now apply Hbest |].
           right. intros r Hr. specialize (Hw r Hr). simpl. lia.
    + rewrite length_app. simpl. lia.
    + destruct Hcases as [(Hr & ->)|(Hfull & pre & w & post & Hsplit & _ & _ & Hout)].
      * apply incl_app; [apply incl_appl, Hsub | apply incl_appr, incl_refl].
      * destruct Hout as [(_ & ->)|(_ & ->)]; [| apply incl_appl, Hsub].
        rewrite app_assoc. apply incl_app; [| apply incl_appr, incl_refl].
        apply incl_appl. intros r Hr. apply Hsub. rewrite Hsplit.
        apply in_app_or in Hr. apply in_or_app.
        destruct Hr; [now left | right; now right].
Qed.

(** X8: for [j >= 1], a run of insertions from the empty list ends
    with [min j n] of the [n] inserted entries, and every inserted
    entry is either retained or of quality at most that of every
    retained entry: the list holds the [j] best. *)
Theorem update_all_keeps_the_best (j : Z) (ins : list entry) :
  (1 <= j)%Z ->
  exists R,
    update_all j ins [] = Ok R /\
    Z.of_nat (length R) = Z.min j (Z.of_nat (length ins)) /\
    incl R ins /\
    (forall e, In e ins -> In e R \/ forall r, In r R -> (snd e <= snd r)%Z).
Proof.
  intros Hj.
  destruct (update_all_best j ins Hj [] []) as (R & HR & Hlen & Hincl & Hbest);
    simpl; try lia; try (intros ? []); try apply incl_refl.
  exists R. auto.
Qed.

Lemma update_all_keeps_the_best_witness :
  exists R,
    update_all 2
      [([("A", true)], 7%Z); ([("A", false)], 3%Z); ([("B", true)], 7%Z)] []
    = Ok R /\
    Z.of_nat (length R) = Z.min 2 (Z.of_nat 3) /\
    incl R [([("A", true)], 7%Z); ([("A", false)], 3%Z); ([("B", true)], 7%Z)] /\
    (forall e,
       In e [([("A", true)], 7%Z); ([("A", false)], 3%Z); ([("B", true)], 7%Z)] ->
       In e R \/ forall r, In r R -> (snd e <= snd r)%Z).
Proof.
  assert (H : (1 <= 2)%Z) by lia.
  exact (update_all_keeps_the_best 2 _ H).
Defined.

Lemma update_top_k_subseq (R R' : list entry) (j : Z) (c : description) (q : Z) :
  update_top_k R j c q = Ok R' -> subseq R' (R ++ [(c, q)]).
Proof.
  intros H. apply update_top_k_cases in H.
  destruct H as [(_ & ->)|(_ & pre & w & post & -> & _ & _ & Hout)].
  - apply subseq_refl.
  - destruct Hout as [(_ & ->)|(_ & ->)].
    + rewrite <- app_assoc. simpl.
      apply subseq_app; [apply subseq_refl |].
      constructor. apply subseq_refl.
    + pose proof (subseq_app (pre ++ w :: post) (pre ++ w :: post) [] [(c, q)]
                    (subseq_refl _) (subseq_skip _ _ _ subseq_nil)) as Hskip.
      rewrite app_nil_r in Hskip. exact Hskip.
Qed.

(** X9: the retained entries stay in the order of their insertion,
    whatever [j]: after a run that returns, the list is the initial
    list followed by the inserted entries, with some entries left
    out.  The entry that leaves a full list, the first of least
    quality, is therefore the one inserted earliest among them. *)
Theorem update_all_insertion_order (j : Z) (ins R0 R : list entry) :
  update_all j ins R0 = Ok R -> subseq R (R0 ++ ins).
Proof.
  revert R0. induction ins as [|[c q] rest IH]; simpl; intros R0 H.
  - injection H as <-. rewrite app_nil_r. apply subseq_refl.
  - inv_bind H. apply IH in H.
    eapply subseq_trans; [exact H |].
    pose proof (subseq_app a (R0 ++ [(c, q)]) rest rest
                  (update_top_k_subseq _ _ _ _ _ Ha) (subseq_refl rest)) as Happ.
    rewrite <- app_assoc in Happ. exact Happ.
Qed.

Lemma update_all_insertion_order_witness :
  subseq [([("A", true)], 7%Z); ([("B", true)], 7%Z)]
    ([] ++ [([("A", true)], 7%Z); ([("A", false)], 3%Z); ([("B", true)], 7%Z)]).
Proof.
  exact (update_all_insertion_order 2
           [([("A", true)], 7%Z); ([("A", false)], 3%Z); ([("B", true)], 7%Z)]
           [] _ eq_refl).
Defined.

(** ** subgroup_selection, in full *)

Lemma StronglySorted_app_order {A : Type} (R : A -> A -> Prop) (l1 l2 : list A) :
  StronglySorted R (l1 ++ l2) ->
  forall a b, In a l1 -> In b l2 -> R a b.
Proof.
  induction l1 as [|x l1 IH]; simpl; intros Hs a b Ha Hb; [contradiction |].
  apply StronglySorted_inv in Hs. destruct Hs as (Hs & Hall).
  destruct Ha as [<-|Ha]; [| now apply IH].
  rewrite Forall_forall in Hall. apply Hall, in_or_app. now right.
Qed.

Lemma StronglySorted_firstn {A : Type} (R : A -> A -> Prop) (n : nat) (l : list A) :
  StronglySorted R l -> StronglySorted R (firstn n l).
Proof.
  revert n. induction l as [|x l IH]; intros [|n] Hs; simpl; try constructor.
  - apply IH. now apply StronglySorted_inv in Hs.
  - apply StronglySorted_inv in Hs. destruct Hs as (_ & Hall).
    rewrite Forall_forall in *. intros y Hy. apply Hall.
    eapply firstn_incl. exact Hy.
Qed.

Lemma sort_desc_sorted_id (l : list entry) :
  StronglySorted quality_ge l -> sort_desc l = l.
Proof.
  induction 1 as [|x l Hs IH Hall]; [reflexivity |].
  cbn [sort_desc fold_right]. fold (sort_desc l). rewrite IH.
  destruct l as [|y rest]; [reflexivity |]. simpl.
  inversion Hall as [|? ? Hy _]; subst. unfold quality_ge in Hy.
  now destruct (Z.leb_spec (snd y) (snd x)); [| lia].
Qed.

Section SelectionMore.
Variable quality_func : quality_fn.
Variable data : DataFrame.

Lemma ranked_length (candidates : list description) :
  length (ranked quality_func data candidates) = length candidates.
Proof.
  apply Permutation_length, ranked_perm.
Qed.

Lemma ranked_prefix_fixed (n : nat) (candidates : list description) :
  ranked quality_func data (firstn n (ranked quality_func data candidates))
  = firstn n (ranked quality_func data candidates).
Proof.
  unfold ranked at 1.
  rewrite <- firstn_map, ranked_scored.
  rewrite sort_desc_sorted_id.
  - rewrite <- ranked_scored, firstn_map. apply map_fst_score.
  - apply StronglySorted_firstn, sort_desc_sorted.
Qed.
End SelectionMore.



(** X11: whatever [P] holds, the candidates split into those returned
    and the others, and no candidate left out has a higher quality
    than a returned one. *)
Theorem subgroup_selection_keeps_the_best (candidates : list description)
    (quality_func : quality_fn) (P : params) (data : DataFrame) :
  exists others,
    Permutation (subgroup_selection candidates quality_func P data ++ others)
      candidates /\
    forall s o,
      In s (subgroup_selection candidates quality_func P data) ->
      In o others ->
      (quality_func o data <= quality_func s data)%Z.
Proof.
  set (out := subgroup_selection candidates quality_func P data).
  assert (Hout : out = firstn (length out) (ranked quality_func data candidates)).
  { unfold out. rewrite subgroup_selection_ranked. apply slice_to_prefix. }
  exists (skipn (length out) (ranked quality_func data candidates)).
  assert (Hsplit : out ++ skipn (length out) (ranked quality_func data candidates)
                   = ranked quality_func data candidates).
  { rewrite Hout at 1. apply firstn_skipn. }
  split.
  - rewrite Hsplit. apply ranked_perm.
  - intros s o Hs Ho.
    pose proof (ranked_sorted quality_func data candidates) as Hsorted.
    rewrite <- Hsplit in Hsorted.
    exact (StronglySorted_app_order _ _ _ Hsorted s o Hs Ho).
Qed.

(** X12: selecting again from a selection changes nothing, as long as
    the width in [P], if any, is not negative. *)
Theorem subgroup_selection_idempotent (candidates : list description)
    (quality_func : quality_fn) (P : params) (data : DataFrame) :
  (forall bw, dict_get "beam_width" P = Some bw -> (0 <= bw)%Z) ->
  subgroup_selection (subgroup_selection candidates quality_func P data)
    quality_func P data
  = subgroup_selection candidates quality_func P data.
Proof.
  intros HP.
  set (out := subgroup_selection candidates quality_func P data).
  assert (Hout : out = firstn (length out) (ranked quality_func data candidates)).
  { unfold out. rewrite subgroup_selection_ranked. apply slice_to_prefix. }
  rewrite (subgroup_selection_ranked quality_func data out).
  assert (Hfix : ranked quality_func data out = out).
  { rewrite Hout at 1. rewrite ranked_prefix_fixed. now rewrite <- Hout. }
  rewrite Hfix. unfold Py.slice_to.
  destruct (dict_get "beam_width" P) as [bw|] eqn:Hbw.
  - specialize (HP bw eq_refl).
    destruct (Z.leb_spec 0 bw); [| lia].
    apply firstn_all2.
    pose proof (subgroup_selection_at_most_width candidates quality_func P data
                  bw Hbw HP) as Hle.
    fold out in Hle. lia.
  - destruct (Z.leb_spec 0 (Z.of_nat (length out))); [| lia].
    apply firstn_all2. lia.
Qed.

Lemma subgroup_selection_idempotent_witness :
  subgroup_selection
    (subgroup_selection three_candidates coverage_quality
       [("beam_width", 2%Z)] ab_data)
    coverage_quality [("beam_width", 2%Z)] ab_data
  = subgroup_selection three_candidates coverage_quality
      [("beam_width", 2%Z)] ab_data.
Proof.
  apply subgroup_selection_idempotent.
  intros bw H. simpl in H. injection H as <-. lia.
Defined.

(** ** apply_dominance_pruning, in full *)

Lemma dict_del_subseq {V : Type} (k : string) (d d' : dict V) :
  dict_del k d = Ok d' -> subseq d' d.
Proof.
  intros H. destruct (dict_del_split k d d' H) as (pre & v & post & -> & ->).
  apply subseq_drop_middle.
Qed.

Lemma filter_incl_mono {A : Type} (f g : A -> bool) (l : list A) :
  (forall x, f x = true -> g x = true) -> incl (filter f l) (filter g l).
Proof.
  intros H x Hx. apply filter_In in Hx. apply filter_In.
  destruct Hx as (Hin & Hf). auto.
Qed.

Section PruningMore.
Variable quality_func : quality_fn.
Variable data : DataFrame.

Lemma prune_loop_subseq (conditions : list string) :
  forall pruned cq p,
    prune_loop quality_func data conditions pruned cq = Ok p -> subseq p pruned.
Proof.
  induction conditions as [|condition rest IH]; simpl; intros pruned cq p H.
  - injection H as <-. apply subseq_refl.
  - inv_bind H. apply dict_del_subseq in Ha.
    destruct (cq <=? quality_func a data)%Z; simpl in H.
    + destruct (length (dict_keys a) =? 1)%nat.
      * now injection H as <-.
      * eapply subseq_trans; [eapply IH; exact H | exact Ha].
    + destruct (length (dict_keys pruned) =? 1)%nat.
      * injection H as <-. apply subseq_refl.
      * eapply IH; exact H.
Qed.

Lemma prune_loop_stale (conditions : list string) :
  forall pruned cq p,
    prune_loop quality_func data conditions pruned cq = Ok p ->
    p = pruned \/ (cq <= quality_func p data)%Z.
Proof.
  induction conditions as [|condition rest IH]; simpl; intros pruned cq p H.
  - injection H as <-. now left.
  - inv_bind H.
    destruct (Z.leb_spec cq (quality_func a data)) as [Hacc|Hrej]; simpl in H.
    + right. destruct (length (dict_keys a) =? 1)%nat.
      * injection H as <-. exact Hacc.
      * destruct (IH _ _ _ H) as [->|Hq]; lia.
    + destruct (length (dict_keys pruned) =? 1)%nat.
      * injection H as <-. now left.
      * eapply IH; exact H.
Qed.

Lemma prune_loop_rejects (conditions : list string) (d : description) (q : Z) :
  incl conditions (dict_keys d) ->
  (forall k temp, dict_del k d = Ok temp -> (quality_func temp data < q)%Z) ->
  prune_loop quality_func data conditions d q = Ok d.
Proof.
  intros Hin Hlow. induction conditions as [|condition rest IH]; simpl; [reflexivity |].
  destruct (dict_del_defined condition d) as (temp & Hdel); [apply Hin; now left |].
  rewrite Hdel. simpl. specialize (Hlow condition temp Hdel).
  destruct (Z.leb_spec q (quality_func temp data)); [lia |]. simpl.
  destruct (length (dict_keys d) =? 1)%nat; [reflexivity |].
  apply IH. intros k Hk. apply Hin. now right.
Qed.
End PruningMore.

(** X13: when the removal of any single condition gives a quality
    strictly below the stored one, the description is returned as it
    is. *)
Theorem apply_dominance_pruning_unchanged (quality_func : quality_fn)
    (data : DataFrame) (d : description) (q : Z) :
  (forall k temp, dict_del k d = Ok temp -> (quality_func temp data < q)%Z) ->
  apply_dominance_pruning (d, q) quality_func data = Ok d.
Proof.
  intros Hlow. unfold apply_dominance_pruning. simpl fst. simpl snd.
  destruct (length (dict_keys d) =? 1)%nat; [reflexivity |].
  apply prune_loop_rejects; [apply incl_refl | exact Hlow].
Qed.

Lemma apply_dominance_pruning_unchanged_witness :
  apply_dominance_pruning (d_AB, 8%Z) coverage_times_size ab_data = Ok d_AB.
Proof.
  apply apply_dominance_pruning_unchanged.
  intros k temp H. unfold d_AB in H. simpl in H.
  destruct (String.eqb k "A").
  - injection H as <-. vm_compute. reflexivity.
  - destruct (String.eqb k "B"); simpl in H; [| discriminate].
    injection H as <-. vm_compute. reflexivity.
Defined.

(** X14: whatever quality is stored with the description, the result
    is either the description itself or a description whose quality is
    at least the stored one. *)
Theorem apply_dominance_pruning_stale_quality (quality_func : quality_fn)
    (data : DataFrame) (d p : description) (q : Z) :
  apply_dominance_pruning (d, q) quality_func data = Ok p ->
  p = d \/ (q <= quality_func p data)%Z.
Proof.
  unfold apply_dominance_pruning. simpl fst. simpl snd.
  destruct (length (dict_keys d) =? 1)%nat.
  - intros H. injection H as <-. now left.
  - apply prune_loop_stale.
Qed.

Lemma apply_dominance_pruning_stale_quality_witness :
  [("B", true)] = d_AB \/ (0 <= coverage_quality [("B", true)] ab_data)%Z.
Proof.
  exact (apply_dominance_pruning_stale_quality coverage_quality ab_data
           d_AB [("B", true)] 0 eq_refl).
Defined.

(** X15: pruning only leaves conditions out: the result keeps the
    order of the conditions it retains, has unique keys when the input
    has, and every row that satisfies the input satisfies the result. *)
Theorem apply_dominance_pruning_leaves_out (quality_func : quality_fn)
    (data : DataFrame) (d p : description) (q : Z) :
  apply_dominance_pruning (d, q) quality_func data = Ok p ->
  subseq p d /\
  length p <= length d /\
  (wf_dict d -> wf_dict p) /\
  incl (matches data d) (matches data p).
Proof.
  intros H.
  assert (Hsub : subseq p d).
  { unfold apply_dominance_pruning in H. simpl fst in H. simpl snd in H.
    destruct (length (dict_keys d) =? 1)%nat.
    - injection H as <-. apply subseq_refl.
    - eapply prune_loop_subseq. exact H. }
  repeat split.
  - exact Hsub.
  - now apply subseq_length.
  - unfold wf_dict, dict_keys. apply subseq_NoDup. now apply subseq_map.
  - apply filter_incl_mono. intros r.
    apply row_satisfies_incl. now apply subseq_incl.
Qed.

Lemma apply_dominance_pruning_leaves_out_witness :
  subseq [("B", true)] d_AB /\
  length [("B", true)] <= length d_AB /\
  (wf_dict d_AB -> wf_dict [("B", true)]) /\
  incl (matches ab_data d_AB) (matches ab_data [("B", true)]).
Proof.
  exact (apply_dominance_pruning_leaves_out coverage_quality ab_data
           d_AB [("B", true)] 4 eq_refl).
Defined.

(** ** remove_duplicates, in full *)

Lemma dedup_loop_subseq (subgroups : list description) :
  forall seen, subseq (dedup_loop subgroups seen) subgroups.
Proof.
  induction subgroups as [|d rest IH]; simpl; intros seen.
  - constructor.
  - destruct (existsb _ seen); [apply subseq_skip | apply subseq_keep]; apply IH.
Qed.

Lemma dedup_loop_fresh (subgroups : list description) :
  forall seen d,
    In d (dedup_loop subgroups seen) -> ~ In (dict_str d) seen.
Proof.
  induction subgroups as [|x rest IH]; cbn [dedup_loop In map app]; intros seen d Hd; [contradiction |].
  destruct (existsb (String.eqb (dict_str x)) seen) eqn:Hseen.
  - now apply IH in Hd.
  - destruct Hd as [<-|Hd].
    + intros Hin. apply existsb_eqb_In in Hin. congruence.
    + apply IH in Hd. intros Hin. apply Hd. now right.
Qed.

Lemma dedup_loop_distinct (subgroups : list description) :
  forall seen, NoDup (map dict_str (dedup_loop subgroups seen)).
Proof.
  induction subgroups as [|x rest IH]; cbn [dedup_loop In map app]; intros seen; [constructor |].
  destruct (existsb (String.eqb (dict_str x)) seen); [apply IH |].
  cbn [map]. constructor; [| apply IH].
  intros Hin. apply in_map_iff in Hin. destruct Hin as (d & Heq & Hd).
  apply dedup_loop_fresh in Hd. apply Hd. rewrite Heq. now left.
Qed.

Lemma dedup_loop_covers (subgroups : list description) :
  forall seen d,
    In d subgroups ->
    In (dict_str d) seen \/
    In (dict_str d) (map dict_str (dedup_loop subgroups seen)).
Proof.
  induction subgroups as [|x rest IH]; cbn [dedup_loop In map app]; intros seen d Hd; [contradiction |].
  destruct (existsb (String.eqb (dict_str x)) seen) eqn:Hseen.
  - destruct Hd as [<-|Hd]; [left; now apply existsb_eqb_In | now apply IH].
  - cbn [map In]. destruct Hd as [<-|Hd]; [right; now left |].
    destruct (IH (dict_str x :: seen) d Hd) as [[Heq|Hin]|Hin]; auto.
Qed.

Lemma dedup_loop_fixed (subgroups : list description) :
  forall seen,
    NoDup (map dict_str subgroups) ->
    (forall d, In d subgroups -> ~ In (dict_str d) seen) ->
    dedup_loop subgroups seen = subgroups.
Proof.
  induction subgroups as [|x rest IH]; cbn [dedup_loop In map app]; intros seen Hnd Hfresh; [reflexivity |].
  inversion Hnd as [|? ? Hx Hnd']; subst.
  destruct (existsb (String.eqb (dict_str x)) seen) eqn:Hseen.
  - apply existsb_eqb_In in Hseen. exfalso. apply (Hfresh x); auto.
  - f_equal. apply IH; [exact Hnd' |].
    intros d Hd [Heq|Hin].
    + apply Hx. rewrite Heq. now apply in_map.
    + apply (Hfresh d); auto.
Qed.

(** X16: [remove_duplicates] keeps, in their order, the descriptions
    whose text was not met before: the result is the input with some
    descriptions left out, its texts are pairwise different (so are
    its descriptions), and every input description has its text in
    the result. *)
Theorem remove_duplicates_first_seen (subgroups : list description) :
  subseq (remove_duplicates subgroups) subgroups /\
  NoDup (map dict_str (remove_duplicates subgroups)) /\
  NoDup (remove_duplicates subgroups) /\
  (forall d, In d subgroups ->
             In (dict_str d) (map dict_str (remove_duplicates subgroups))).
Proof.
  unfold remove_duplicates. repeat split.
  - apply dedup_loop_subseq.
  - apply dedup_loop_distinct.
  - eapply NoDup_map_inv. apply dedup_loop_distinct.
  - intros d Hd. destruct (dedup_loop_covers subgroups [] d Hd) as [[]|H].
    exact H.
Qed.

(** X17: removing duplicates twice is removing them once. *)
Theorem remove_duplicates_idempotent (subgroups : list description) :
  remove_duplicates (remove_duplicates subgroups) = remove_duplicates subgroups.
Proof.
  unfold remove_duplicates at 1. apply dedup_loop_fixed.
  - apply dedup_loop_distinct.
  - intros d _ [].
Qed.

(** X18: a list whose descriptions have pairwise different texts is
    returned as it is, and a description repeated with the same
    conditions in the same order is dropped. *)
Theorem remove_duplicates_exact_copies (subgroups : list description)
    (d : description) :
  (NoDup (map dict_str subgroups) -> remove_duplicates subgroups = subgroups) /\
  (In d subgroups ->
   remove_duplicates (subgroups ++ [d]) = remove_duplicates subgroups).
Proof.
  split.
  - intros Hnd. apply dedup_loop_fixed; [exact Hnd | intros ? _ []].
  - intros Hd. unfold remove_duplicates.
    assert (Hgen : forall l seen,
               In (dict_str d) seen \/ In d l ->
               dedup_loop (l ++ [d]) seen = dedup_loop l seen).
    { induction l as [|x rest IH]; cbn [dedup_loop In map app]; intros seen Hin.
      - destruct Hin as [Hin|[]]. apply existsb_eqb_In in Hin. now rewrite Hin.
      - destruct (existsb (String.eqb (dict_str x)) seen) eqn:Hseen.
        + apply IH. destruct Hin as [Hin|[<-|Hin]]; auto.
          left. now apply existsb_eqb_In.
        + f_equal. apply IH. destruct Hin as [Hin|[<-|Hin]]; auto.
          * left. now right.
          * left. now left. }
    apply Hgen. now right.
Qed.

Lemma remove_duplicates_exact_copies_witness :
  remove_duplicates ([d_AB; d_BA] ++ [d_AB]) = remove_duplicates [d_AB; d_BA].
Proof.
  apply (remove_duplicates_exact_copies [d_AB; d_BA] d_AB). now left.
Defined.

(** ** dssd, in full *)

Lemma apply_dominance_pruning_subseq (quality_func : quality_fn)
    (data : DataFrame) (d p : description) (q : Z) :
  apply_dominance_pruning (d, q) quality_func data = Ok p -> subseq p d.
Proof.
  unfold apply_dominance_pruning. simpl fst. simpl snd.
  destruct (length (dict_keys d) =? 1)%nat.
  - intros H. injection H as <-. apply subseq_refl.
  - apply prune_loop_subseq.
Qed.

Lemma Forall2_in_right {A B : Type} (R : A -> B -> Prop) (l : list A)
    (l' : list B) (y : B) :
  Forall2 R l l' -> In y l' -> exists x, In x l /\ R x y.
Proof.
  induction 1 as [|x y' l l' Hxy _ IH]; simpl; intros Hy; [contradiction |].
  destruct Hy as [<-|Hy].
  - exists x. auto.
  - destruct (IH Hy) as (x' & Hin & HR). exists x'. auto.
Qed.

Lemma slice_to_firstn {A : Type} (stop : Z) (l : list A) :
  exists n, Py.slice_to stop l = firstn n l.
Proof.
  unfold Py.slice_to. destruct (0 <=? stop)%Z; eauto.
Qed.

Lemma slice_to_subseq {A : Type} (stop : Z) (l : list A) :
  subseq (Py.slice_to stop l) l.
Proof.
  destruct (slice_to_firstn stop l) as (n & ->). apply subseq_firstn.
Qed.

Lemma subgroup_selection_nil (quality_func : quality_fn) (P : params)
    (data : DataFrame) :
  subgroup_selection [] quality_func P data = [].
Proof.
  apply incl_l_nil, subgroup_selection_incl.
Qed.

Lemma subgroup_selection_subseq_ranked (candidates : list description)
    (quality_func : quality_fn) (P : params) (data : DataFrame) :
  subseq (subgroup_selection candidates quality_func P data)
    (ranked quality_func data candidates).
Proof.
  rewrite subgroup_selection_ranked. apply slice_to_subseq.
Qed.

Lemma dssd_steps (S : DataFrame) (quality_func : quality_fn)
    (j k mincov maxdepth : Z) (P : params) (out : list description) :
  dssd S quality_func j k mincov maxdepth P = Ok out ->
  exists R ps,
    depth_loop (Z.to_nat maxdepth) S quality_func j mincov P [] [[]] = Ok R /\
    prune_all quality_func S R = Ok ps /\
    out = Py.slice_to k
            (subgroup_selection (remove_duplicates ps) quality_func P S).
Proof.
  intros H. unfold dssd in H. inv_bind H. inv_bind H. injection H as <-.
  eauto.
Qed.

Lemma dssd_no_retained (S : DataFrame) (quality_func : quality_fn)
    (j k mincov maxdepth : Z) (P : params) :
  depth_loop (Z.to_nat maxdepth) S quality_func j mincov P [] [[]] = Ok [] ->
  dssd S quality_func j k mincov maxdepth P = Ok [].
Proof.
  intros H. unfold dssd. rewrite H. simpl.
  change (remove_duplicates []) with (@nil description).
  rewrite subgroup_selection_nil. f_equal.
  apply incl_l_nil, slice_to_incl.
Qed.

Section SearchMore.
Variable data : DataFrame.
Variable quality_func : quality_fn.
Variable j mincov : Z.
Variable P : params.

Lemma prune_all_Forall2 (R : list entry) (ps : list description) :
  prune_all quality_func data R = Ok ps ->
  Forall2 (fun e p => apply_dominance_pruning e quality_func data = Ok p) R ps.
Proof.
  revert ps. induction R as [|r rest IH]; simpl; intros ps H.
  - injection H as <-. constructor.
  - inv_bind H. inv_bind H. injection H as <-. constructor; auto.
Qed.

Lemma depth_loop_empty_beam (rounds : nat) (R : list entry) :
  depth_loop rounds data quality_func j mincov P R [] = Ok R.
Proof.
  induction rounds as [|rounds IH]; simpl; [reflexivity |].
  rewrite subgroup_selection_nil. exact IH.
Qed.

Lemma retain_all_length (Cands : list description) :
  forall R R',
    retain_all quality_func data j Cands R = Ok R' ->
    (Z.of_nat (length R) <= Z.max 0 j)%Z ->
    (Z.of_nat (length R') <= Z.max 0 j)%Z.
Proof.
  induction Cands as [|c rest IH]; simpl; intros R R' H Hlen.
  - now injection H as <-.
  - inv_bind H. apply (IH a R' H).
    apply update_top_k_cases in Ha.
    destruct Ha as [(Hroom & ->)|(_ & pre & w & post & -> & _ & _ & Hout)].
    + rewrite length_app. simpl. lia.
    + destruct Hout as [(_ & ->)|(_ & ->)]; [| exact Hlen].
      revert Hlen. repeat rewrite length_app. simpl. lia.
Qed.

Lemma depth_loop_length (rounds : nat) :
  forall R Beam R',
    depth_loop rounds data quality_func j mincov P R Beam = Ok R' ->
    (Z.of_nat (length R) <= Z.max 0 j)%Z ->
    (Z.of_nat (length R') <= Z.max 0 j)%Z.
Proof.
  induction rounds as [|rounds IH]; simpl; intros R Beam R' H Hlen.
  - now injection H as <-.
  - inv_bind H. inv_bind H. apply (IH _ _ _ H).
    eapply retain_all_length; eassumption.
Qed.

(** Round by round the beam holds descriptions of one more condition,
    and the retained list descriptions of at most that many. *)
Lemma depth_loop_sizes (rounds : nat) :
  forall n R Beam R',
    depth_loop rounds data quality_func j mincov P R Beam = Ok R' ->
    Forall (fun b => beam_ok data b /\ length b = n) Beam ->
    Forall (fun e => beam_ok data (fst e) /\ length (fst e) <= n) R ->
    Forall (fun e => beam_ok data (fst e) /\ length (fst e) <= n + rounds) R'.
Proof.
  induction rounds as [|rounds IH]; simpl; intros n R Beam R' H HB HR.
  - injection H as <-. eapply Forall_impl; [| exact HR].
    intros e (Hok & Hlen). split; [exact Hok | lia].
  - assert (HB' : Forall (beam_ok data) Beam).
    { eapply Forall_impl; [| exact HB]. now intros b (Hok & _). }
    destruct (extend_refinements_spec data mincov Beam HB') as (Cands & HC & Hspec).
    rewrite HC in H. simpl in H. inv_bind H.
    assert (HCands : Forall (fun c => beam_ok data c /\ length c = S n) Cands).
    { apply Forall_forall. intros c Hc. apply Hspec in Hc.
      destruct Hc as (b & Hb & Hk). rewrite Forall_forall in HB.
      destruct (HB b Hb) as (Hok & Hlen). split.
      - eapply kept_refinement_beam_ok; [apply incl_refl | exact Hok | exact Hk].
      - destruct Hk as (c0 & v & _ & _ & -> & _).
        rewrite length_app. simpl. lia. }
    replace (n + S rounds) with (S n + rounds) by lia.
    apply (IH (S n) a _ R' H).
    + apply Forall_forall. intros c Hc.
      apply subgroup_selection_incl in Hc.
      rewrite Forall_forall in HCands. now apply HCands.
    + apply (retain_all_preserves data quality_func j
               (fun d => beam_ok data d /\ length d <= S n) Cands R a Ha).
      * eapply Forall_impl; [| exact HCands].
        intros c (Hok & Hlen). split; [exact Hok | lia].
      * eapply Forall_impl; [| exact HR].
        intros e (Hok & Hlen). split; [exact Hok | lia].
Qed.
End SearchMore.

(** X19: with [maxdepth <= 0] the loop does not run and [dssd]
    returns the empty list, whatever the other arguments, [j <= 0]
    included. *)
Theorem dssd_no_depth (S : DataFrame) (quality_func : quality_fn)
    (j k mincov maxdepth : Z) (P : params) :
  (maxdepth <= 0)%Z ->
  dssd S quality_func j k mincov maxdepth P = Ok [].
Proof.
  intros H. apply dssd_no_retained.
  replace (Z.to_nat maxdepth) with 0 by lia. reflexivity.
Qed.

Lemma dssd_no_depth_witness :
  dssd ab_data coverage_quality 0 2 3 0 [("beam_width", 2%Z)] = Ok [].
Proof.
  apply dssd_no_depth. lia.
Defined.

(** X20: on a dataset whose labels are plain and pairwise different,
    when no single condition covers [mincov] rows, the search has no
    candidate and [dssd] returns the empty list without an error, for
    every [j], [j <= 0] included, and every depth. *)
Theorem dssd_no_candidate (S : DataFrame) (quality_func : quality_fn)
    (j k mincov maxdepth : Z) (P : params) :
  plain_frame S = true ->
  (forall c v, In c (columns S) ->
               (Z.of_nat (coverage S [(c, v)]) < mincov)%Z) ->
  dssd S quality_func j k mincov maxdepth P = Ok [].
Proof.
  intros _ Hlow. apply dssd_no_retained.
  destruct (Z.to_nat maxdepth) as [|rounds]; [reflexivity |].
  simpl depth_loop.
  destruct (extend_refinements_spec S mincov [[]] (beam_ok_start S))
    as (Cands & HC & Hspec).
  simpl extend_refinements in HC. rewrite HC. simpl.
  destruct Cands as [|c rest].
  - simpl. rewrite subgroup_selection_nil. apply depth_loop_empty_beam.
  - exfalso. destruct (proj1 (Hspec c) (or_introl eq_refl))
      as (b & [<-|[]] & c0 & v & Hin & _ & -> & Hcov).
    specialize (Hlow c0 v Hin). simpl in Hcov. lia.
Qed.

Lemma dssd_no_candidate_witness :
  dssd ab_data coverage_quality 0 2 8 2 [("beam_width", 2%Z)] = Ok [].
Proof.
  apply dssd_no_candidate; [reflexivity |].
  intros c v [<-|[<-|[]]]; destruct v; vm_compute; reflexivity.
Defined.

(** X21: every description that [dssd] returns has at least one and
    at most [maxdepth] conditions, on pairwise different columns, all
    of them columns of the dataset. *)
Theorem dssd_output_descriptions (S : DataFrame) (quality_func : quality_fn)
    (j k mincov maxdepth : Z) (P : params) (out : list description) :
  dssd S quality_func j k mincov maxdepth P = Ok out ->
  Forall (fun d =>
            1 <= length d <= Z.to_nat maxdepth /\
            wf_dict d /\
            incl (dict_keys d) (columns S)) out.
Proof.
  intros H. destruct (dssd_steps _ _ _ _ _ _ _ _ H) as (R & ps & HR & Hps & ->).
  pose proof (depth_loop_sizes S quality_func j mincov P _ 0 [] [[]] R HR) as Hsizes.
  pose proof (depth_loop_preserves S quality_func j mincov P _ [] [[]] R HR
                (beam_ok_start S) (Forall_nil _)) as Hmined.
  assert (Hsz : Forall (fun e => beam_ok S (fst e) /\
                                 length (fst e) <= 0 + Z.to_nat maxdepth) R).
  { apply Hsizes; [| constructor].
    repeat constructor. intros c []. }
  apply prune_all_Forall2 in Hps.
  apply Forall_forall. intros p Hp.
  apply slice_to_incl, subgroup_selection_incl, remove_duplicates_incl in Hp.
  destruct (Forall2_in_right _ _ _ _ Hps Hp) as (e & He & Hprune).
  rewrite Forall_forall in Hsz, Hmined.
  destruct (Hsz e He) as ((Hwf & Hkeys) & Hlen).
  destruct (Hmined e He) as (_ & Hne & _).
  destruct e as [d q]. simpl in *.
  pose proof (apply_dominance_pruning_subseq _ _ _ _ _ Hprune) as Hsub.
  destruct (apply_dominance_pruning_spec quality_func S d q Hwf)
    as (p' & Hp' & _ & Hfloor & _).
  rewrite Hprune in Hp'. injection Hp' as <-.
  repeat split.
  - now apply Hfloor.
  - apply subseq_length in Hsub. lia.
  - unfold wf_dict, dict_keys in *. eapply subseq_NoDup; [| exact Hwf].
    now apply subseq_map.
  - intros c Hc. apply Hkeys.
    eapply subseq_incl; [apply subseq_map; exact Hsub | exact Hc].
Qed.

Lemma dssd_output_descriptions_witness :
  Forall (fun d =>
            1 <= length d <= Z.to_nat 2 /\
            wf_dict d /\
            incl (dict_keys d) (columns ab_data)) [d_AB; d_BA].
Proof.
  exact (dssd_output_descriptions ab_data coverage_times_size 4 2 3 2
           [("beam_width", 4%Z)] [d_AB; d_BA] eq_refl).
Defined.

(** X22: [dssd] never returns more descriptions than [max 0 j], nor
    more than [k] when [k >= 0], nor more than a non-negative
    [beam_width] of [P]. *)
Theorem dssd_output_length (S : DataFrame) (quality_func : quality_fn)
    (j k mincov maxdepth : Z) (P : params) (out : list description) :
  dssd S quality_func j k mincov maxdepth P = Ok out ->
  (Z.of_nat (length out) <= Z.max 0 j)%Z /\
  ((0 <= k)%Z -> (Z.of_nat (length out) <= k)%Z) /\
  (forall bw, dict_get "beam_width" P = Some bw -> (0 <= bw)%Z ->
              (Z.of_nat (length out) <= bw)%Z).
Proof.
  intros H. split; [| split].
  - destruct (dssd_steps _ _ _ _ _ _ _ _ H) as (R & ps & HR & Hps & ->).
    apply depth_loop_length in HR; [| simpl; lia].
    apply prune_all_Forall2, Forall2_length in Hps.
    pose proof (subseq_length _ _ (slice_to_subseq k
                  (subgroup_selection (remove_duplicates ps) quality_func P S))).
    pose proof (subseq_length _ _ (subgroup_selection_subseq_ranked
                  (remove_duplicates ps) quality_func P S)) as Hsel.
    rewrite ranked_length in Hsel.
    pose proof (subseq_length _ _ (dedup_loop_subseq ps [])) as Hdd.
    unfold remove_duplicates in *. unfold entry in *. lia.
  - intros Hk. now apply (dssd_returned S quality_func j k mincov maxdepth P).
  - intros bw Hbw Hpos. eapply dssd_output_within_beam_width; eassumption.
Qed.

Lemma dssd_output_length_witness :
  (Z.of_nat (length [d_AB; d_BA]) <= Z.max 0 4)%Z /\
  ((0 <= 2)%Z -> (Z.of_nat (length [d_AB; d_BA]) <= 2)%Z) /\
  (forall bw, dict_get "beam_width" [("beam_width", 4%Z)] = Some bw ->
              (0 <= bw)%Z -> (Z.of_nat (length [d_AB; d_BA]) <= bw)%Z).
Proof.
  exact (dssd_output_length ab_data coverage_times_size 4 2 3 2
           [("beam_width", 4%Z)] [d_AB; d_BA] eq_refl).
Defined.

(** X23: the output of [dssd] is in descending order of freshly
    computed quality, and no two of its descriptions have the same
    text. *)
Theorem dssd_output_ranked_distinct (S : DataFrame) (quality_func : quality_fn)
    (j k mincov maxdepth : Z) (P : params) (out : list description) :
  dssd S quality_func j k mincov maxdepth P = Ok out ->
  StronglySorted (fun a b => (quality_func b S <= quality_func a S)%Z) out /\
  NoDup (map dict_str out).
Proof.
  intros H. destruct (dssd_steps _ _ _ _ _ _ _ _ H) as (R & ps & _ & _ & ->).
  set (dd := remove_duplicates ps). split.
  - destruct (slice_to_firstn k (subgroup_selection dd quality_func P S)) as (n & ->).
    apply StronglySorted_firstn.
    rewrite subgroup_selection_ranked.
    destruct (slice_to_firstn
                match dict_get "beam_width" P with
                | Some w => w
                | None => Z.of_nat (length dd)
                end (ranked quality_func S dd)) as (m & ->).
    apply StronglySorted_firstn, ranked_sorted.
  - apply (subseq_NoDup _ (map dict_str (ranked quality_func S dd))).
    + apply subseq_map.
      eapply subseq_trans; [apply slice_to_subseq |].
      apply subgroup_selection_subseq_ranked.
    + eapply Permutation_NoDup.
      * apply Permutation_map. symmetry. apply ranked_perm.
      * apply dedup_loop_distinct.
Qed.

Lemma dssd_output_ranked_distinct_witness :
  StronglySorted
    (fun a b => (coverage_times_size b ab_data <= coverage_times_size a ab_data)%Z)
    [d_AB; d_BA] /\
  NoDup (map dict_str [d_AB; d_BA]).
Proof.
  exact (dssd_output_ranked_distinct ab_data coverage_times_size 4 2 3 2
           [("beam_width", 4%Z)] [d_AB; d_BA] eq_refl).
Defined.

(** ** calculate_subgroup_quality, in full *)



Lemma bonus_fold (keys : list string) :
  forall bonus,
    fold_left
      (fun bonus k =>
         if existsb (String.eqb k) interests
         then (if (bonus =? 1)%Z then 3%Z else 0%Z)
         else bonus) keys bonus
    = match length (filter (fun k => existsb (String.eqb k) interests) keys) with
      | 0 => bonus
      | 1 => if (bonus =? 1)%Z then 3%Z else 0%Z
      | _ => 0%Z
      end.
Proof.
  induction keys as [|k rest IH]; intros bonus; [reflexivity |].
  cbn [fold_left filter]. rewrite IH.
  destruct (existsb (String.eqb k) interests); [| reflexivity].
  cbn [length].
  destruct (length (filter (fun k0 => existsb (String.eqb k0) interests) rest))
    as [|[|n]]; try reflexivity.
  now destruct (bonus =? 1)%Z.
Qed.

Lemma bonus_of_count (subgroup : description) :
  bonus_of subgroup
  = match count_interests subgroup with
    | 0 => 1%Z
    | 1 => 3%Z
    | _ => 0%Z
    end.
Proof.
  unfold bonus_of, count_interests. rewrite bonus_fold.
  now destruct (length _) as [|[|n]].
Qed.



(** X24: the bonus is 1 when no condition bears on a column of
    [interests], 3 when exactly one does, and 0 when two or more do;
    so the quality of a description with two conditions or more on
    such columns is 0. *)
Theorem bonus_by_interests (subgroup : description) (data : DataFrame) (q : Z) :
  bonus_of subgroup
  = match count_interests subgroup with
    | 0 => 1%Z
    | 1 => 3%Z
    | _ => 0%Z
    end /\
  (calculate_subgroup_quality subgroup data = Ok q ->
   2 <= count_interests subgroup -> q = 0%Z).
Proof.
  split; [apply bonus_of_count |].
  intros H Hcount. unfold calculate_subgroup_quality in H. inv_bind H.
  injection H as <-. rewrite bonus_of_count.
  destruct (count_interests subgroup) as [|[|n]]; [lia | lia | lia].
Qed.

Lemma bonus_by_interests_witness :
  bonus_of two_interests = 0%Z /\
  (Z.of_nat (coverage abc_data two_interests)
   * Z.of_nat (length two_interests) * bonus_of two_interests = 0)%Z.
Proof.
  split.
  - exact (proj1 (bonus_by_interests two_interests abc_data 0)).
  - exact (proj2 (bonus_by_interests two_interests abc_data
                    (Z.of_nat (coverage abc_data two_interests)
                     * Z.of_nat (length two_interests)
                     * bonus_of two_interests)) eq_refl (le_n 2)).
Defined.

(** X25: a quality that is returned lies between 0 and three times
    the number of rows times the number of conditions. *)
Theorem calculate_subgroup_quality_bounds (subgroup : description)
    (data : DataFrame) (q : Z) :
  calculate_subgroup_quality subgroup data = Ok q ->
  (0 <= q <= 3 * Z.of_nat (length (rows data)) * Z.of_nat (length subgroup))%Z.
Proof.
  intros H. unfold calculate_subgroup_quality in H. inv_bind H.
  injection H as <-. apply query_Ok in Ha. destruct Ha as (-> & _).
  rewrite bonus_of_count, dict_keys_length.
  pose proof (filter_length_le (row_satisfies subgroup) (rows data)) as Hle.
  unfold matches.
  set (c := length (filter (row_satisfies subgroup) (rows data))) in *.
  set (N := length (rows data)) in *.
  set (m := length subgroup).
  destruct (count_interests subgroup) as [|[|n]]; nia.
Qed.

Lemma calculate_subgroup_quality_bounds_witness :
  (0 <= 30 <= 3 * Z.of_nat (length (rows abc_data))
               * Z.of_nat (length [("cycle_life_0", true); ("A", true)]))%Z.
Proof.
  exact (calculate_subgroup_quality_bounds
           [("cycle_life_0", true); ("A", true)] abc_data 30 eq_refl).
Defined.



(** ** Instances of the properties stated with inner conditions *)

Lemma subgroup_selection_keeps_the_best_witness :
  exists others,
    Permutation
      (subgroup_selection three_candidates coverage_quality
         [("beam_width", 2%Z)] ab_data ++ others)
      three_candidates /\
    forall s o,
      In s (subgroup_selection three_candidates coverage_quality
              [("beam_width", 2%Z)] ab_data) ->
      In o others ->
      (coverage_quality o ab_data <= coverage_quality s ab_data)%Z.
Proof.
  exact (subgroup_selection_keeps_the_best three_candidates coverage_quality
           [("beam_width", 2%Z)] ab_data).
Defined.

Lemma remove_duplicates_first_seen_witness :
  subseq (remove_duplicates [d_AB; d_BA; d_AB]) [d_AB; d_BA; d_AB] /\
  NoDup (map dict_str (remove_duplicates [d_AB; d_BA; d_AB])) /\
  NoDup (remove_duplicates [d_AB; d_BA; d_AB]) /\
  (forall d, In d [d_AB; d_BA; d_AB] ->
             In (dict_str d)
               (map dict_str (remove_duplicates [d_AB; d_BA; d_AB]))).
Proof.
  exact (remove_duplicates_first_seen [d_AB; d_BA; d_AB]).
Defined.
